(** * rprof: a profiler for the reads of io.Reader, io.ReadCloser and io.ReaderAt

    A shallow embedding of package [rprof] (the profiler state [Rprof], the
    bucketing function [nextPowerOfTwo], [recordSample], [Start], [Stop],
    the [profileBuilder] and the read adapters) and the properties that its
    specification states about them.

    Conventions of the embedding.
    - Go's [int], [int64], [uint64] and [uintptr] are values of [Z]; [int]
      and [uintptr] are 64 bits wide.  An arithmetic operation that can
      leave the range of its type is followed by the wrap-around of that
      type ([int64], [uint8]).  [uint64(len(x)) + 1] cannot wrap, because
      [len] is a non-negative [int], and is written without one.
    - Go maps are [gmap]s and the [nil] map is [None].  The order in which
      a [range] loop visits a map is not fixed by Go: it is an argument
      (a [mapRange]) of every function that ranges over a map.
    - [time.Now().UnixNano()], the program counters that [runtime.Callers]
      reports and the memory regions of the process are inputs. *)

From Stdlib Require Import ZArith Lia DecimalString.
From stdpp Require Import base option list strings countable gmap fin_maps.

Local Open Scope Z_scope.

(** ** Machine integers *)

(** Conversion to a signed 64-bit integer (two's complement wrap-around). *)
Definition int64 (z : Z) : Z := (z + 2 ^ 63) mod 2 ^ 64 - 2 ^ 63.

(** Conversion to an unsigned 8-bit integer. *)
Definition uint8 (z : Z) : Z := z mod 2 ^ 8.

Definition maxInt64 : Z := 2 ^ 63 - 1.
Definition minInt64 : Z := - 2 ^ 63.
Definition maxUint64 : Z := 2 ^ 64 - 1.

Definition is_int64 (z : Z) : Prop := minInt64 <= z <= maxInt64.
Definition is_uint64 (z : Z) : Prop := 0 <= z <= maxUint64.

(** Go's [error] values of this package are made by [errors.New]: an error
    is its message. *)
Definition error : Type := string.
Definition errors_New (text : string) : error := text.

(** ** Size buckets *)

(** The loop [for i := 0; i < 63; i++] of [nextPowerOfTwo]: [n] is the
    number of iterations that remain, [i] the loop variable.  [1<<i] is an
    [int], hence the wrap-around. *)
Fixpoint nextPowerOfTwo_from (n : nat) (i : Z) (input : Z) : Z :=
  match n with
  | O => 63
  | S n' =>
      if int64 (Z.shiftl 1 i) >=? input then uint8 i
      else nextPowerOfTwo_from n' (i + 1) input
  end.

(** [nextPowerOfTwo] returns the power, not the value, of the next power of
    two that is greater or equal to the input. *)
Definition nextPowerOfTwo (input : Z) : Z := nextPowerOfTwo_from 63 0 input.

(** ** The profiler state *)

(** [sampleKey] is the key used to group a unique sample: [locations] is
    the array [[128]uintptr], [sizeBucketPower] and [numLocations] are
    [uint8]. *)
Record sampleKey : Type := mkSampleKey {
  locations : list Z;
  sizeBucketPower : Z;
  numLocations : Z;
}.

#[global] Instance sampleKey_eq_dec : EqDecision sampleKey.
Proof. solve_decision. Defined.

#[global] Instance sampleKey_countable : Countable sampleKey.
Proof.
  refine (inj_countable'
    (fun k => (locations k, sizeBucketPower k, numLocations k))
    (fun t => mkSampleKey t.1.1 t.1.2 t.2) _).
  intros []; reflexivity.
Defined.

(** The two values of a sample, [[2]int64]: the number of reads and the
    number of bytes read. *)
Abbreviation sampleValue := (Z * Z)%type.

(** [Rprof]: the mutex is not part of the state; [Start], [Stop] and
    [recordSample] are the critical sections it serialises. *)
Record Rprof : Type := mkRprof {
  samples : option (gmap sampleKey sampleValue);
  startTime : Z;
}.

Definition NewProfiler : Rprof := {| samples := None; startTime := 0 |}.

(** The capacity of the array of a [sampleKey]. *)
Definition maxLocations : nat := 128.

(** [runtime.Callers(skip, pc)] fills [pc] with the return program counters
    of the calling goroutine's stack and returns the number of entries it
    wrote.  [callers] are the program counters of that stack after the
    skipped frames, innermost first. *)
Definition runtime_Callers (callers : list Z) (pc : list Z) : list Z * Z :=
  let n := Nat.min (length callers) (length pc) in
  (take n callers ++ drop n pc, Z.of_nat n).

(** [Start] starts the profiler at time [now].  The second component is the
    error, [None] for [nil]. *)
Definition Start (now : Z) (p : Rprof) : Rprof * option error :=
  if negb (startTime p =? 0) then
    (p, Some (errors_New "profiler already started"))
  else
    ({| samples := Some ∅; startTime := now |}, None).

(** [recordSample], called with the stack [callers] of program counters
    that [runtime.Callers(3, ...)] sees.  The result is [None] when the call
    panics (an assignment to an entry of a [nil] map).  [int64(size)] is the
    identity on an [int]. *)
Definition recordSample (callers : list Z) (size : Z) (p : Rprof) : option Rprof :=
  let sizeBucketPower := nextPowerOfTwo size in
  if startTime p =? 0 then
    (* profiler not started *)
    Some p
  else
    let locations := replicate maxLocations 0 in
    let '(locations, numRead) := runtime_Callers callers locations in
    let k := {| locations := locations;
                numLocations := uint8 numRead;
                sizeBucketPower := sizeBucketPower |} in
    m ← samples p;
    let sample := default (0, 0) (m !! k) in
    (* first sample is the number of reads, second the number of bytes read *)
    let sample := (int64 (sample.1 + 1), int64 (sample.2 + size)) in
    Some {| samples := Some (<[k := sample]> m); startTime := startTime p |}.

(** A sequence of [recordSample] calls, each with its stack and its size,
    in the order in which they take the mutex. *)
Fixpoint recordSamples (calls : list (list Z * Z)) (p : Rprof) : option Rprof :=
  match calls with
  | [] => Some p
  | c :: calls => p ← recordSample c.1 c.2 p; recordSamples calls p
  end.

(** ** The profile (package proto) *)

Module proto.

Module ValueType.
Record t : Type := mk { Type_ : Z; Unit : Z }.
End ValueType.

Module Mapping.
Record t : Type := mk {
  Id : Z;
  MemoryStart : Z;
  MemoryLimit : Z;
  FileOffset : Z;
  Filename : Z;
  BuildId : Z;
}.
End Mapping.

Module Location.
Record t : Type := mk { Id : Z; MappingIndex : Z; Address : Z }.
End Location.

Module Label.
Record t : Type := mk { Key : Z; Num : Z }.
End Label.

Module Sample.
Record t : Type := mk {
  LocationIndex : list Z;
  Value : list Z;
  Label : list Label.t;
}.
End Sample.

Module Profile.
Record t : Type := mk {
  StringTable : list string;
  Mapping : list Mapping.t;
  Location : list Location.t;
  Sample : list Sample.t;
  DurationNanos : Z;
  TimeNanos : Z;
  Period : Z;
  PeriodType : ValueType.t;
  SampleType : list ValueType.t;
}.
End Profile.

End proto.

Import proto.

#[global] Instance Label_eq_dec : EqDecision Label.t.
Proof. solve_decision. Defined.

#[global] Instance Sample_eq_dec : EqDecision Sample.t.
Proof. solve_decision. Defined.

(** ** The profile builder *)

Record profileBuilder : Type := mkProfileBuilder { p : Profile.t }.

Definition set_StringTable (v : list string) (b : profileBuilder) : profileBuilder :=
  let q := p b in
  {| p := Profile.mk v (Profile.Mapping q) (Profile.Location q)
            (Profile.Sample q) (Profile.DurationNanos q) (Profile.TimeNanos q)
            (Profile.Period q) (Profile.PeriodType q) (Profile.SampleType q) |}.

Definition set_Mapping (v : list Mapping.t) (b : profileBuilder) : profileBuilder :=
  let q := p b in
  {| p := Profile.mk (Profile.StringTable q) v (Profile.Location q)
            (Profile.Sample q) (Profile.DurationNanos q) (Profile.TimeNanos q)
            (Profile.Period q) (Profile.PeriodType q) (Profile.SampleType q) |}.

Definition set_Location (v : list Location.t) (b : profileBuilder) : profileBuilder :=
  let q := p b in
  {| p := Profile.mk (Profile.StringTable q) (Profile.Mapping q) v
            (Profile.Sample q) (Profile.DurationNanos q) (Profile.TimeNanos q)
            (Profile.Period q) (Profile.PeriodType q) (Profile.SampleType q) |}.

Definition set_Sample (v : list Sample.t) (b : profileBuilder) : profileBuilder :=
  let q := p b in
  {| p := Profile.mk (Profile.StringTable q) (Profile.Mapping q)
            (Profile.Location q) v (Profile.DurationNanos q) (Profile.TimeNanos q)
            (Profile.Period q) (Profile.PeriodType q) (Profile.SampleType q) |}.

(** [addString] adds a string to the string table and returns the index. *)
Definition addString (s : string) (b : profileBuilder) : profileBuilder * Z :=
  let b := set_StringTable (Profile.StringTable (p b) ++ [s]) b in
  (b, Z.of_nat (length (Profile.StringTable (p b))) - 1).

(** [addMappingEntry] adds a mapping to the profile.  If it's a fake mapping
    then a mapping that covers the entire address space is added. *)
Definition addMappingEntry (lo hi offset : Z) (file buildID : string)
    (fake : bool) (b : profileBuilder) : profileBuilder :=
  let nextIdx := Z.of_nat (length (Profile.Mapping (p b))) + 1 in
  if fake then
    set_Mapping (Profile.Mapping (p b) ++
      [ {| Mapping.Id := nextIdx;
           Mapping.MemoryStart := 0;
           Mapping.MemoryLimit := Z.shiftl 1 63;
           Mapping.FileOffset := 0;
           Mapping.Filename := 0;
           Mapping.BuildId := 0 |} ]) b
  else
    let '(b, filename) := addString file b in
    let '(b, buildId) := addString buildID b in
    set_Mapping (Profile.Mapping (p b) ++
      [ {| Mapping.Id := nextIdx;
           Mapping.MemoryStart := lo;
           Mapping.MemoryLimit := hi;
           Mapping.FileOffset := offset;
           Mapping.Filename := filename;
           Mapping.BuildId := buildId |} ]) b.

(** [addMapping] is called from the respective platform-specific
    implementations to add a mapping to the profile. *)
Definition addMapping (lo hi offset : Z) (file buildID : string)
    (b : profileBuilder) : profileBuilder :=
  addMappingEntry lo hi offset file buildID false b.

(** A known code region of the process: [lo], [hi], [offset], [file] and
    [buildID]. *)
Record region : Type := mkRegion {
  lo : Z;
  hi : Z;
  offset : Z;
  file : string;
  buildID : string;
}.

(** Modelled from the spec: [readMapping], the platform-specific method that
    [newProfileBuilder] calls and whose implementations are not among the
    sources.  It adds the mapping table entries for the known code regions
    with [addMapping]; if none are known, it adds one synthetic mapping with
    [addMappingEntry] and [fake = true]. *)
Definition readMapping (regions : list region) (b : profileBuilder) : profileBuilder :=
  match regions with
  | [] => addMappingEntry 0 0 0 "" "" true b
  | _ =>
      foldl (fun b r => addMapping (lo r) (hi r) (offset r) (file r) (buildID r) b)
            b regions
  end.

(** [newProfileBuilder] returns a new profileBuilder with the given
    timestamp and duration. *)
Definition newProfileBuilder (regions : list region)
    (timestampNanos durationNanos : Z) : profileBuilder :=
  let b :=
    {| p := {|
         (* StringTable is initialized with values we know are going to be there. *)
         Profile.StringTable := [""; "reads"; "count"; "read"; "bytes"];
         Profile.Mapping := [];
         Profile.Location := [];
         Profile.Sample := [];
         Profile.DurationNanos := durationNanos;
         Profile.TimeNanos := timestampNanos;
         Profile.Period := 1;
         Profile.PeriodType := {| ValueType.Type_ := 1; ValueType.Unit := 2 |};
         Profile.SampleType :=
           [ {| ValueType.Type_ := 1; ValueType.Unit := 2 |};
             {| ValueType.Type_ := 3; ValueType.Unit := 4 |} ] |} |} in
  (* populate the mappings right away *)
  readMapping regions b.

(** The search of [build] for the mapping of an address:
    [for i := uint64(0); i < uint64(len(b.p.Mapping)); i++], from index [i]
    on, where [mapping] are the entries from that index.  IDs are
    1-indexed; 0 when no mapping contains the address. *)
Fixpoint findMapping_from (i : Z) (mapping : list Mapping.t) (addr : Z) : Z :=
  match mapping with
  | [] => 0
  | m :: rest =>
      if (Mapping.MemoryStart m <=? addr) && (addr <? Mapping.MemoryLimit m)
      then i + 1
      else findMapping_from (i + 1) rest addr
  end.

Definition findMapping (mapping : list Mapping.t) (addr : Z) : Z :=
  findMapping_from 0 mapping addr.

(** [copyLocs] copies the locations to a new slice. *)
Definition copyLocs (locs : list Z) : list Z := locs.

(** The state of the loops of [build]: the table [locIdx] from addresses to
    location ids, the builder, and the slice [locs]. *)
Record buildState : Type := mkBuildState {
  locIdx : gmap Z Z;
  builder : profileBuilder;
  locs : list Z;
}.

(** The body of the inner loop of [build],
    [for _, loc := range sampleKey.locations]. *)
Definition visitLocation (st : buildState) (loc : Z) : buildState :=
  match locIdx st !! loc with
  | Some idx =>
      {| locIdx := locIdx st; builder := builder st; locs := locs st ++ [idx] |}
  | None =>
      let idx := Z.of_nat (size (locIdx st)) + 1 in
      let locIdx' := <[loc := idx]> (locIdx st) in
      let addr := loc in
      let mappingId := findMapping (Profile.Mapping (p (builder st))) addr in
      let b := set_Location (Profile.Location (p (builder st)) ++
                 [ {| Location.Id := idx;
                      Location.MappingIndex := mappingId;
                      Location.Address := addr |} ]) (builder st) in
      {| locIdx := locIdx'; builder := b; locs := locs st ++ [idx] |}
  end.

(** The body of the outer loop of [build],
    [for sampleKey, sampleValue := range samples]. *)
Definition visitSample (st : buildState) (kv : sampleKey * sampleValue) : buildState :=
  let '(sampleKey, sampleValue) := kv in
  let st := {| locIdx := locIdx st; builder := builder st; locs := [] |} in
  let st := foldl visitLocation st (locations sampleKey) in
  let b := set_Sample (Profile.Sample (p (builder st)) ++
             [ {| (* Copy the locations since we're reusing the slice. *)
                  Sample.LocationIndex := copyLocs (locs st);
                  Sample.Value := [sampleValue.1; sampleValue.2];
                  Sample.Label :=
                    [ {| Label.Key := 4; (* "bytes" *)
                         Label.Num := int64 (Z.shiftl 1 (sizeBucketPower sampleKey)) |} ]
               |} ]) (builder st) in
  {| locIdx := locIdx st; builder := b; locs := locs st |}.

(** The order in which a [range] loop visits the entries of a sample map. *)
Definition mapRange : Type :=
  gmap sampleKey sampleValue -> list (sampleKey * sampleValue).

(** A [mapRange] visits every entry of the map once. *)
Definition mapRange_ok (range : mapRange) : Prop :=
  forall m, range m ≡ₚ map_to_list m.

(** [build] populates the samples and locations in the profile.  A [range]
    loop over the [nil] map has no iteration. *)
Definition build (range : mapRange) (samples : option (gmap sampleKey sampleValue))
    (b : profileBuilder) : Profile.t :=
  let b := set_Sample [] b in
  let st := {| locIdx := ∅; builder := b; locs := [] |} in
  let st := foldl visitSample st (from_option range [] samples) in
  p (builder st).

(** [Stop] stops the profiler at time [now] and returns the profile: the
    new state, the profile ([None] for [nil]) and the error ([None] for
    [nil]). *)
Definition Stop (regions : list region) (range : mapRange) (now : Z) (p : Rprof)
    : Rprof * (option Profile.t * option error) :=
  if startTime p =? 0 then
    (p, (None, Some (errors_New "profiler not started")))
  else
    let ts := startTime p in
    let samples' := samples p in
    let p := {| samples := samples p; startTime := 0 |} in
    let duration := int64 (now - ts) in
    let b := newProfileBuilder regions ts duration in
    (p, (Some (build range samples' b), None)).

(** ** The read adapters *)

(** [io.Reader]: [Read(buf)] returns the number of bytes read and an error;
    it may change the reader and the buffer. *)
Class io_Reader (R : Type) : Type :=
  io_Read : R -> list Byte.byte -> R * list Byte.byte * (Z * option error).

(** [io.ReaderAt]: [ReadAt(buf, off)]. *)
Class io_ReaderAt (R : Type) : Type :=
  io_ReadAt : R -> list Byte.byte -> Z -> R * list Byte.byte * (Z * option error).

(** [io.Closer]: [Close()]. *)
Class io_Closer (R : Type) : Type :=
  io_Close : R -> R * option error.

(** What a call of an adapter leaves and returns: the profiler, the
    underlying reader, the buffer and the results [(n, err)]. *)
Record readResult (R : Type) : Type := mkReadResult {
  profiler : Rprof;
  reader : R;
  buffer : list Byte.byte;
  result : Z * option error;
}.

Arguments mkReadResult {R} _ _ _ _.
Arguments profiler {R} _.
Arguments reader {R} _.
Arguments buffer {R} _.
Arguments result {R} _.

(** [RprofReader.Read] reads from the underlying reader [r] and records the
    sample in the profiler [p].  [callers] is the stack of the caller of
    [Read].  [None] when [recordSample] panics. *)
Definition RprofReader_Read {R : Type} `{!io_Reader R} (callers : list Z)
    (r : R) (buf : list Byte.byte) (p : Rprof) : option (readResult R) :=
  let '(r, buf, (n, err)) := io_Read r buf in
  p ← recordSample callers n p;
  Some (mkReadResult p r buf (n, err)).

(** [RprofReadCloser.Read]. *)
Definition RprofReadCloser_Read {R : Type} `{!io_Reader R} `{!io_Closer R}
    (callers : list Z) (r : R) (buf : list Byte.byte) (p : Rprof)
    : option (readResult R) :=
  let '(r, buf, (n, err)) := io_Read r buf in
  p ← recordSample callers n p;
  Some (mkReadResult p r buf (n, err)).

(** [RprofReadCloser.Close] closes the underlying reader. *)
Definition RprofReadCloser_Close {R : Type} `{!io_Reader R} `{!io_Closer R}
    (r : R) : R * option error :=
  io_Close r.

(** [RprofReaderAt.ReadAt]. *)
Definition RprofReaderAt_ReadAt {R : Type} `{!io_ReaderAt R} (callers : list Z)
    (r : R) (buf : list Byte.byte) (off : Z) (p : Rprof) : option (readResult R) :=
  let '(r, buf, (n, err)) := io_ReadAt r buf off in
  p ← recordSample callers n p;
  Some (mkReadResult p r buf (n, err)).

(** [io.EOF]. *)
Definition io_EOF : error := errors_New "EOF".

(** A reader of a byte slice, after [bytes.Reader], for the examples: the
    slice [s] and the reading index [i]. *)
Record bytesReader : Type := mkBytesReader { s : list Byte.byte; i : nat }.

(** [copy(dst, src)]: the new [dst] and the number of bytes copied. *)
Definition copy (dst src : list Byte.byte) : list Byte.byte * nat :=
  let n := Nat.min (length dst) (length src) in
  (take n src ++ drop n dst, n).

(** [bytes.Reader.Read]: at the end of the slice it returns 0, [io.EOF]. *)
#[global] Instance bytesReader_Read : io_Reader bytesReader :=
  fun r b =>
    if (length (s r) <=? i r)%nat then (r, b, (0, Some io_EOF))
    else
      let '(b, n) := copy b (drop (i r) (s r)) in
      ({| s := s r; i := (i r + n)%nat |}, b, (Z.of_nat n, None)).

(** [bytes.Reader.ReadAt]. *)
#[global] Instance bytesReader_ReadAt : io_ReaderAt bytesReader :=
  fun r b off =>
    if off <? 0 then
      (r, b, (0, Some (errors_New "bytes.Reader.ReadAt: negative offset")))
    else if Z.of_nat (length (s r)) <=? off then (r, b, (0, Some io_EOF))
    else
      let len_b := length b in
      let '(b, n) := copy b (drop (Z.to_nat off) (s r)) in
      (r, b, (Z.of_nat n, if (n <? len_b)%nat then Some io_EOF else None)).

(** [io.NopCloser]: a [Close] that does nothing. *)
#[global] Instance bytesReader_Close : io_Closer bytesReader :=
  fun r => (r, None).

(** ** Notions of the specification *)

(** A profiling window is open: the code keeps no flag, the start time is
    the flag. *)
Definition running (p : Rprof) : Prop := startTime p <> 0.

(** The array of a captured stack: what [runtime.Callers] leaves in the
    zero array [[128]uintptr{}]. *)
Definition capturedLocations (callers : list Z) : list Z :=
  (runtime_Callers callers (replicate maxLocations 0)).1.

(** The key that [recordSample] makes of a stack and a size. *)
Definition newSampleKey (callers : list Z) (size : Z) : sampleKey :=
  {| locations := capturedLocations callers;
     numLocations := uint8 (runtime_Callers callers (replicate maxLocations 0)).2;
     sizeBucketPower := nextPowerOfTwo size |}.

(** The counters of a key in a sample map, zero when the key is absent. *)
Definition counters (m : gmap sampleKey sampleValue) (k : sampleKey) : sampleValue :=
  default (0, 0) (m !! k).

(** The calls of a sequence whose sample falls on the key [k]. *)
Definition callsOf (k : sampleKey) (calls : list (list Z * Z)) : list (list Z * Z) :=
  filter (fun c => newSampleKey c.1 c.2 = k) calls.

(** The sum of the sizes of a sequence of calls. *)
Definition sumSizes (calls : list (list Z * Z)) : Z :=
  foldr (fun c acc => c.2 + acc) 0 calls.

(** What one [recordSample] call does to the sample map of a running
    profiler. *)
Definition recordInto (m : gmap sampleKey sampleValue) (c : list Z * Z)
    : gmap sampleKey sampleValue :=
  <[newSampleKey c.1 c.2 :=
     (int64 ((counters m (newSampleKey c.1 c.2)).1 + 1),
      int64 ((counters m (newSampleKey c.1 c.2)).2 + c.2))]> m.

(** The invariant of the loops of [build]: the table [locIdx] and the
    location table of the profile describe each other, and the ids of the
    table are distinct. *)
Record tables_ok (st : buildState) : Prop := mkTablesOk {
  ids_bounded : forall a id,
    locIdx st !! a = Some id -> 1 <= id <= Z.of_nat (size (locIdx st));
  ids_inj : forall a a' id,
    locIdx st !! a = Some id -> locIdx st !! a' = Some id -> a = a';
  locations_sound : forall l,
    l ∈ Profile.Location (p (builder st)) ->
    locIdx st !! Location.Address l = Some (Location.Id l) /\
    Location.MappingIndex l =
      findMapping (Profile.Mapping (p (builder st))) (Location.Address l);
  locations_complete : forall a id,
    locIdx st !! a = Some id ->
    exists l, l ∈ Profile.Location (p (builder st)) /\
              Location.Id l = id /\ Location.Address l = a;
}.

(** The sample [s] is the one that [build] emits for the entry [kv] of the
    sample map, [li] being the table from addresses to location ids. *)
Definition emitted (li : gmap Z Z) (kv : sampleKey * sampleValue) (s : Sample.t) : Prop :=
  Forall2 (fun a id => li !! a = Some id) (locations kv.1) (Sample.LocationIndex s) /\
  Sample.Value s = [kv.2.1; kv.2.2] /\
  Sample.Label s =
    [ {| Label.Key := 4;
         Label.Num := int64 (Z.shiftl 1 (sizeBucketPower kv.1)) |} ].

(** The ids of a mapping table are the positions of its entries, from 1. *)
Definition mapping_ids_ok (mapping : list Mapping.t) : Prop :=
  forall i m, mapping !! i = Some m -> Mapping.Id m = Z.of_nat i + 1.

(** The entry of the location table that a location id refers to. *)
Definition locationOf (prof : Profile.t) (id : Z) : option Location.t :=
  List.find (fun l => Location.Id l =? id) (Profile.Location prof).

(** The stack of a sample of a profile: the addresses of the locations that
    its location ids refer to, [None] for an id that refers to none. *)
Definition sampleAddresses (prof : Profile.t) (s : Sample.t) : list (option Z) :=
  (fun id => Location.Address <$> locationOf prof id) <$> Sample.LocationIndex s.

(** The sample entries of a profile for a stack and a size bucket: the
    samples whose location ids refer to the addresses [addrs], in this
    order, and whose label is the bucket's byte value [num] under the
    string index 4 ("bytes"). *)
Definition samplesOf (prof : Profile.t) (addrs : list Z) (num : Z) : list Sample.t :=
  filter (fun s => sampleAddresses prof s = Some <$> addrs /\
                   Sample.Label s = [ {| Label.Key := 4; Label.Num := num |} ])
         (Profile.Sample prof).

(** A profiling window: [Start] at time [now], a sequence of [recordSample]
    calls, [Stop] at time [now'].  [None] when a call panics. *)
Definition profileWindow (regions : list region) (range : mapRange)
    (now : Z) (calls : list (list Z * Z)) (now' : Z) (p : Rprof)
    : option (Rprof * (option Profile.t * option error)) :=
  p ← recordSamples calls (Start now p).1;
  Some (Stop regions range now' p).

(** A stack of three return addresses, for the examples. *)
Definition exampleStack : list Z := [4198400; 4202496; 4206592].

(** The calls of a window: three reads of 4096 bytes from [exampleStack],
    between them a read of 100 bytes from the same stack and a read of 4096
    bytes from another stack. *)
Definition exampleCalls : list (list Z * Z) :=
  [ (exampleStack, 4096); (exampleStack, 100); (exampleStack, 4096);
    ([4198400; 4210688], 4096); (exampleStack, 4096) ].

(** A profiler after a window: stopped, with the sample map of the window. *)
Definition exampleStopped : Rprof :=
  {| samples := Some {[ newSampleKey exampleStack 4096 := (3, 12288) ]};
     startTime := 0 |}.

(** The key of a stack of two frames and a read of 4096 bytes: two slots of
    its array are used. *)
Definition twoFrameKey : sampleKey := newSampleKey [4198400; 4202496] 4096.

(** The key of a stack whose one frame has the return address [2^63]. *)
Definition highAddressKey : sampleKey := newSampleKey [2 ^ 63] 4096.

(** A running profiler with an empty sample map. *)
Definition exampleRunning : Rprof := {| samples := Some ∅; startTime := 1 |}.

(** A reader at the end of its slice, and a buffer. *)
Definition exampleReader : bytesReader :=
  {| s := [Byte.x68; Byte.x69]; i := 2 |}.
Definition exampleBuffer : list Byte.byte := replicate 4 Byte.x00.

(** The profile that the [Stop] of a window returns. *)
Definition windowProfile (regions : list region) (range : mapRange)
    (now : Z) (calls : list (list Z * Z)) (now' : Z) (p : Rprof)
    : option Profile.t :=
  w ← profileWindow regions range now calls now' p; w.2.1.

(** The states that the profiler can be in: a running profiler has a map. *)
Definition Rprof_ok (p : Rprof) : Prop := running p -> is_Some (samples p).

(** The two errors of the package. *)
Definition AlreadyRunning : error := "profiler already started"%string.
Definition NotRunning : error := "profiler not started"%string.

(** ** Further notions *)

(** A call on the profiler: [Start] and [Stop] with the clock reading, and
    [recordSample] with its stack and size. *)
Inductive call : Type :=
  | callStart (now : Z)
  | callStop (now : Z)
  | callRecord (callers : list Z) (size : Z).

(** The state that a call leaves; [None] when it panics.  The results of
    [Start] and [Stop] are dropped. *)
Definition runCall (regions : list region) (range : mapRange) (c : call)
    (p : Rprof) : option Rprof :=
  match c with
  | callStart now => Some (Start now p).1
  | callStop now => Some (Stop regions range now p).1
  | callRecord callers size => recordSample callers size p
  end.

(** A sequence of calls, in the order in which they take the mutex. *)
Fixpoint runCalls (regions : list region) (range : mapRange) (cs : list call)
    (p : Rprof) : option Rprof :=
  match cs with
  | [] => Some p
  | c :: cs => p ← runCall regions range c p; runCalls regions range cs p
  end.

(** The [recordSample] calls of a list of stacks and sizes. *)
Definition recordCalls (calls : list (list Z * Z)) : list call :=
  (fun c => callRecord c.1 c.2) <$> calls.

(** The profiles that the [Stop] calls of a sequence of calls return, in
    the order of the calls; a [Stop] that returns an error returns no
    profile.  [None] when a call panics.  The sequence is the order in
    which the calls take the mutex: [Stop] builds the profile after it has
    released the mutex, from the map that it read under it, and no later
    call writes to that map, because after [Stop] [recordSample] returns
    at its guard until a [Start] has installed a new map. *)
Fixpoint stopProfiles (regions : list region) (range : mapRange) (cs : list call)
    (p : Rprof) : option (list Profile.t) :=
  match cs with
  | [] => Some []
  | c :: cs =>
      p' ← runCall regions range c p;
      profs ← stopProfiles regions range cs p';
      Some (match c with
            | callStop now => option_list (Stop regions range now p).2.1 ++ profs
            | _ => profs
            end)
  end.

(** The profile of the window that is opened at [now], in which the calls
    [calls] of [recordSample] take the mutex in this order, and that is
    closed at [now']: [Start] installs the empty map, the calls record into
    it, and [Stop] builds the profile of the map. *)
Definition windowOf (regions : list region) (range : mapRange) (now : Z)
    (calls : list (list Z * Z)) (now' : Z) : Profile.t :=
  build range (Some (foldl recordInto ∅ calls))
        (newProfileBuilder regions now (int64 (now' - now))).

(** The values of the samples of a profile. *)
Definition sampleValues (prof : Profile.t) : list (list Z) :=
  Sample.Value <$> Profile.Sample prof.

(** The label value that [build] gives the samples of a size:
    [1 << sizeBucketPower] as an [int64]. *)
Definition bucketLabel (size : Z) : Z :=
  int64 (Z.shiftl 1 (nextPowerOfTwo size)).

(** The numbers of reads and of bytes that the samples of a profile add up
    to: the sums of the first and of the second values. *)
Definition totalReads (prof : Profile.t) : Z :=
  foldr (fun smp acc => default 0 (Sample.Value smp !! 0%nat) + acc) 0
        (Profile.Sample prof).

Definition totalBytes (prof : Profile.t) : Z :=
  foldr (fun smp acc => default 0 (Sample.Value smp !! 1%nat) + acc) 0
        (Profile.Sample prof).

(** The string of a string-table index. *)
Definition stringOf (prof : Profile.t) (idx : Z) : option string :=
  if idx <? 0 then None else Profile.StringTable prof !! Z.to_nat idx.

(** The mapping [m] contains the address. *)
Definition covers (m : Mapping.t) (addr : Z) : Prop :=
  Mapping.MemoryStart m <= addr < Mapping.MemoryLimit m.

(** What a sample of a profile says: the addresses of its stack, its values
    and its labels. *)
Definition sampleContent (prof : Profile.t) (smp : Sample.t)
    : list (option Z) * list Z * list Label.t :=
  (sampleAddresses prof smp, Sample.Value smp, Sample.Label smp).

(** What the sample of an entry of the sample map has to say. *)
Definition entryContent (kv : sampleKey * sampleValue)
    : list (option Z) * list Z * list Label.t :=
  (Some <$> locations kv.1, [kv.2.1; kv.2.2],
   [ {| Label.Key := 4;
        Label.Num := int64 (Z.shiftl 1 (sizeBucketPower kv.1)) |} ]).

(** The parts of a profile that [build] does not write. *)
Definition header (q : Profile.t) :=
  (Profile.StringTable q, Profile.Mapping q, Profile.DurationNanos q,
   Profile.TimeNanos q, Profile.Period q, Profile.PeriodType q,
   Profile.SampleType q).

(** The location ids of the loops of [build] are the positions of the
    entries of the location table, from 1, and the table [locIdx] has one
    entry for each of them. *)
Definition ids_consecutive (st : buildState) : Prop :=
  length (Profile.Location (p (builder st))) = size (locIdx st) /\
  forall i l, Profile.Location (p (builder st)) !! i = Some l ->
    Location.Id l = Z.of_nat i + 1.

(** The numbers of reads and of bytes that the entries of a sample map add
    up to. *)
Definition sumReads (entries : list (sampleKey * sampleValue)) : Z :=
  foldr (fun kv acc => kv.2.1 + acc) 0 entries.

Definition sumBytes (entries : list (sampleKey * sampleValue)) : Z :=
  foldr (fun kv acc => kv.2.2 + acc) 0 entries.

(** No counter of the sample map is negative. *)
Definition counters_nonneg (m : gmap sampleKey sampleValue) : Prop :=
  forall k v, m !! k = Some v -> 0 <= v.1 /\ 0 <= v.2.

(** ** The HTTP handler *)

(** What [ServeHTTP] uses of the libraries: [strconv.Atoi], [strconv.Itoa],
    [proto.Marshal] (of a [*proto.Profile], [None] for [nil]), and
    [gzip.Writer.Write] on a new writer over an empty buffer, which gives
    what the buffer holds after the call and the error. *)
Record externals : Type := mkExternals {
  strconv_Atoi : string -> Z * option error;
  strconv_Itoa : Z -> string;
  proto_Marshal : option Profile.t -> list Byte.byte * option error;
  gzip_Write : list Byte.byte -> list Byte.byte * option error;
}.

(** The calls of a handler on its [http.ResponseWriter], in order:
    [http.Error(w, msg, code)], [w.Header().Set(key, value)],
    [w.WriteHeader(code)] and [w.Write(b)]. *)
Inductive wcall : Type :=
  | http_Error (msg : string) (code : Z)
  | Header_Set (key value : string)
  | WriteHeader (code : Z)
  | Write (b : list Byte.byte).

Definition StatusOK : Z := 200.
Definition StatusBadRequest : Z := 400.
Definition StatusInternalServerError : Z := 500.

(** [time.Second], in nanoseconds. *)
Definition time_Second : Z := 1000000000.

(** [ProfHandler.ServeHTTP] on the profiler [p].  [formSeconds] is
    [r.FormValue("seconds")]; [now] and [now'] are the clock readings of
    [Start] and [Stop]; [during d] are the calls that other goroutines make
    on the profiler while the handler sleeps for the duration [d].  The
    result is the profiler and the calls on the response writer, [None]
    when a call panics.  The deferred [gz.Close()] runs after the response
    is written and changes neither. *)
Definition ServeHTTP (ext : externals) (regions : list region) (range : mapRange)
    (formSeconds : string) (now : Z) (during : Z -> list call) (now' : Z)
    (p : Rprof) : option (Rprof * list wcall) :=
  (* Default to 10 seconds. *)
  let seconds := 10 in
  let '(seconds, err) :=
    if negb (String.eqb formSeconds "") then
      (* If given, parse the duration. *)
      strconv_Atoi ext formSeconds
    else (seconds, None) in
  match err with
  | Some err => Some (p, [http_Error err StatusBadRequest])
  | None =>
      (* Start the profiler. *)
      let '(p, err) := Start now p in
      match err with
      | Some err => Some (p, [http_Error err StatusInternalServerError])
      | None =>
          (* Wait for the duration for samples to accumulate. *)
          p ← runCalls regions range (during (int64 (seconds * time_Second))) p;
          (* Stop the profiler, which returns the profile. *)
          let '(p, (prof, err)) := Stop regions range now' p in
          match err with
          | Some err => Some (p, [http_Error err StatusInternalServerError])
          | None =>
              (* Marshal the proto message, compress it, and write it to
                 the response. *)
              let '(content, err) := proto_Marshal ext prof in
              match err with
              | Some err => Some (p, [http_Error err StatusInternalServerError])
              | None =>
                  let '(buf, err) := gzip_Write ext content in
                  match err with
                  | Some err => Some (p, [http_Error err StatusInternalServerError])
                  | None =>
                      Some (p,
                        [ Header_Set "Content-Type" "application/x-protobuf";
                          Header_Set "Content-Encoding" "gzip";
                          Header_Set "Content-Length"
                            (strconv_Itoa ext (Z.of_nat (length buf)));
                          WriteHeader StatusOK;
                          Write buf ])
                  end
              end
          end
      end
  end.

(** The seconds that the handler sleeps: 10 unless the form value is given. *)
Definition sleepSeconds (ext : externals) (formSeconds : string) : Z :=
  if String.eqb formSeconds "" then 10 else (strconv_Atoi ext formSeconds).1.

(** The form value is empty or a number. *)
Definition secondsParse (ext : externals) (formSeconds : string) : Prop :=
  formSeconds = ""%string \/ (strconv_Atoi ext formSeconds).2 = None.

(** Libraries for the examples: decimal numbers, a marshalling that gives
    one byte for each sample, and a compression that leaves the bytes as
    they are. *)
Definition exampleExternals : externals :=
  {| strconv_Atoi := fun str =>
       match NilZero.int_of_string str with
       | Some d => (Z.of_int d, None)
       | None => (0, Some (errors_New "invalid syntax"))
       end;
     strconv_Itoa := fun z => NilZero.string_of_int (Z.to_int z);
     proto_Marshal := fun prof =>
       (match prof with
        | Some prof => replicate (length (Profile.Sample prof)) Byte.x0a
        | None => []
        end, None);
     gzip_Write := fun content => (content, None) |}.

(** The calls of other goroutines while a handler sleeps: the reads of
    [exampleCalls] when the sleep is 3 seconds, none otherwise. *)
Definition exampleDuring (d : Z) : list call :=
  if d =? 3 * time_Second then (fun c => callRecord c.1 c.2) <$> exampleCalls
  else [].

(** The window and the types of a profile. *)
Definition meta (q : Profile.t) :=
  (Profile.DurationNanos q, Profile.TimeNanos q, Profile.Period q,
   Profile.PeriodType q, Profile.SampleType q).

(** The mapping [m] is the mapping of the code region [r] in the profile. *)
Definition mappingOf (prof : Profile.t) (r : region) (m : Mapping.t) : Prop :=
  Mapping.MemoryStart m = lo r /\ Mapping.MemoryLimit m = hi r /\
  Mapping.FileOffset m = offset r /\
  stringOf prof (Mapping.Filename m) = Some (file r) /\
  stringOf prof (Mapping.BuildId m) = Some (buildID r).

(** Two code regions, for the examples. *)
Definition exampleRegions : list region :=
  [ {| lo := 4194304; hi := 4718592; offset := 0;
       file := "/usr/bin/app"; buildID := "abc123" |};
    {| lo := 139637976727552; hi := 139637978824704; offset := 4096;
       file := "/lib/libc.so.6"; buildID := "" |} ].

(** The profile of the window of [exampleCalls], opened at 1 and closed at
    5, with no known code region. *)
Definition exampleProfile : Profile.t :=
  build map_to_list (Some (foldl recordInto ∅ exampleCalls))
        (newProfileBuilder [] 1 (int64 (5 - 1))).

(** ** Properties of the machine integers *)

Lemma int64_id z : is_int64 z -> int64 z = z.
Proof.
  unfold is_int64, minInt64, maxInt64, int64. intros H.
  rewrite Z.mod_small; lia.
Qed.

Lemma uint8_id z : 0 <= z < 256 -> uint8 z = z.
Proof. unfold uint8. intros H. apply Z.mod_small. lia. Qed.

Lemma int64_range z : is_int64 (int64 z).
Proof.
  unfold is_int64, minInt64, maxInt64, int64.
  pose proof (Z.mod_pos_bound (z + 2 ^ 63) (2 ^ 64)). lia.
Qed.

Lemma int64_add_l a b : int64 (int64 a + b) = int64 (a + b).
Proof.
  unfold int64.
  replace ((a + 2 ^ 63) mod 2 ^ 64 - 2 ^ 63 + b + 2 ^ 63)
    with ((a + 2 ^ 63) mod 2 ^ 64 + b) by lia.
  rewrite Zplus_mod_idemp_l. f_equal. f_equal. lia.
Qed.

(** ** Properties of the size buckets *)

Lemma shiftl_one_int64 i : 0 <= i <= 62 -> int64 (Z.shiftl 1 i) = 2 ^ i.
Proof.
  intros Hi. rewrite Z.shiftl_1_l. apply int64_id.
  unfold is_int64, minInt64, maxInt64.
  assert (0 < 2 ^ i) by (apply Z.pow_pos_nonneg; lia).
  assert (2 ^ i <= 2 ^ 62) by (apply Z.pow_le_mono_r; lia).
  lia.
Qed.

(** Invariant of the loop: every exponent below the result is too small,
    and a result below 63 is large enough. *)
Lemma nextPowerOfTwo_from_spec input n i :
  0 <= i -> i + Z.of_nat n = 63 ->
  (forall j, 0 <= j < i -> 2 ^ j < input) ->
  i <= nextPowerOfTwo_from n i input <= 63 /\
  (forall j, 0 <= j < nextPowerOfTwo_from n i input -> 2 ^ j < input) /\
  (nextPowerOfTwo_from n i input < 63 ->
   input <= 2 ^ nextPowerOfTwo_from n i input).
Proof.
  revert i. induction n as [|n IH]; intros i Hi Hn Hlow.
  - cbn [nextPowerOfTwo_from]. split; [lia|]. split; [|lia].
    intros j Hj. apply Hlow. lia.
  - cbn [nextPowerOfTwo_from]. rewrite shiftl_one_int64 by lia.
    destruct (Z.geb_spec (2 ^ i) input) as [Hge|Hlt].
    + rewrite uint8_id by lia. repeat split; try lia. exact Hlow.
    + destruct (IH (i + 1)) as (Hb & Hsmall & Hbig); try lia.
      * intros j Hj. destruct (Z.eq_dec j i) as [->|Hne]; [lia|].
        apply Hlow. lia.
      * repeat split; try lia; assumption.
Qed.

Lemma nextPowerOfTwo_spec input :
  0 <= nextPowerOfTwo input <= 63 /\
  (forall j, 0 <= j < nextPowerOfTwo input -> 2 ^ j < input) /\
  (nextPowerOfTwo input < 63 -> input <= 2 ^ nextPowerOfTwo input).
Proof.
  apply (nextPowerOfTwo_from_spec input 63 0); [lia|reflexivity|].
  intros j Hj. lia.
Qed.

Lemma nextPowerOfTwo_range input : 0 <= nextPowerOfTwo input <= 63.
Proof. apply nextPowerOfTwo_spec. Qed.

Example nextPowerOfTwo_100 : nextPowerOfTwo 100 = 7.
Proof. reflexivity. Qed.

Example nextPowerOfTwo_200 : nextPowerOfTwo 200 = 8.
Proof. reflexivity. Qed.

Example nextPowerOfTwo_4096 : nextPowerOfTwo 4096 = 12.
Proof. reflexivity. Qed.

Example nextPowerOfTwo_5000 : nextPowerOfTwo 5000 = 13.
Proof. reflexivity. Qed.

Example nextPowerOfTwo_maxInt64 : nextPowerOfTwo maxInt64 = 63.
Proof. vm_compute. reflexivity. Qed.

(** C2. Size bucketing: for every size [s >= 1] of type [int], the bucket
    exponent [b = nextPowerOfTwo s] is the smallest integer [>= 0] with
    [2^b >= s]: [2^b >= s], [2^(b-1) < s] whenever [b >= 1], and no smaller
    exponent is large enough; it is at most 63, and is 63 for every size
    above [2^62], where no power of two that is large enough fits an [int].
    Sizes 0 and 1 both map to bucket 0, and [nextPowerOfTwo] maps 1 to 0,
    2 to 1, 4 to 2, 14 to 4 and 31 to 5. *)
Theorem nextPowerOfTwo_smallest_exponent (s : Z) :
  1 <= s -> s <= maxInt64 ->
  (0 <= nextPowerOfTwo s <= 63 /\
   s <= 2 ^ nextPowerOfTwo s /\
   (1 <= nextPowerOfTwo s -> 2 ^ (nextPowerOfTwo s - 1) < s) /\
   (forall c, 0 <= c -> s <= 2 ^ c -> nextPowerOfTwo s <= c) /\
   (2 ^ 62 < s -> nextPowerOfTwo s = 63)) /\
  (nextPowerOfTwo 0 = 0 /\ nextPowerOfTwo 1 = 0) /\
  (nextPowerOfTwo 1 = 0 /\ nextPowerOfTwo 2 = 1 /\ nextPowerOfTwo 4 = 2 /\
   nextPowerOfTwo 14 = 4 /\ nextPowerOfTwo 31 = 5).
Proof.
  intros Hs Hmax.
  destruct (nextPowerOfTwo_spec s) as (Hb & Hsmall & Hbig).
  split; [|split; [split; reflexivity | repeat split; reflexivity]].
  split; [exact Hb|].
  split.
  { destruct (Z.eq_dec (nextPowerOfTwo s) 63) as [E|NE].
    - rewrite E. unfold maxInt64 in Hmax. lia.
    - apply Hbig. lia. }
  split.
  { intros H1. apply Hsmall. lia. }
  split.
  { intros c Hc Hle.
    destruct (Z_le_gt_dec (nextPowerOfTwo s) c) as [Hok|Hgt]; [exact Hok|].
    specialize (Hsmall c). lia. }
  intros Hbigs.
  destruct (Z.eq_dec (nextPowerOfTwo s) 63) as [E|NE]; [exact E|].
  assert (Hle : s <= 2 ^ nextPowerOfTwo s) by (apply Hbig; lia).
  assert (2 ^ nextPowerOfTwo s <= 2 ^ 62) by (apply Z.pow_le_mono_r; lia).
  lia.
Qed.

Lemma nextPowerOfTwo_smallest_exponent_witness :
  (0 <= nextPowerOfTwo 14 <= 63 /\
   14 <= 2 ^ nextPowerOfTwo 14 /\
   (1 <= nextPowerOfTwo 14 -> 2 ^ (nextPowerOfTwo 14 - 1) < 14) /\
   (forall c, 0 <= c -> 14 <= 2 ^ c -> nextPowerOfTwo 14 <= c) /\
   (2 ^ 62 < 14 -> nextPowerOfTwo 14 = 63)) /\
  (nextPowerOfTwo 0 = 0 /\ nextPowerOfTwo 1 = 0) /\
  (nextPowerOfTwo 1 = 0 /\ nextPowerOfTwo 2 = 1 /\ nextPowerOfTwo 4 = 2 /\
   nextPowerOfTwo 14 = 4 /\ nextPowerOfTwo 31 = 5).
Proof.
  apply (nextPowerOfTwo_smallest_exponent 14); [lia | unfold maxInt64; lia].
Defined.

(** ** Properties of [Start], [Stop] and [recordSample] *)

Lemma running_eqb (p : Rprof) : running p <-> (startTime p =? 0) = false.
Proof. unfold running. rewrite Z.eqb_neq. reflexivity. Qed.

Lemma not_running_eqb (p : Rprof) : ~ running p <-> (startTime p =? 0) = true.
Proof.
  unfold running. rewrite Z.eqb_eq.
  destruct (Z.eq_dec (startTime p) 0); intuition.
Qed.

(** What [recordSample] does to a running profiler. *)
Lemma recordSample_running callers size (p : Rprof) m :
  running p -> samples p = Some m ->
  recordSample callers size p =
    Some {| samples :=
              Some (<[newSampleKey callers size :=
                       (int64 ((counters m (newSampleKey callers size)).1 + 1),
                        int64 ((counters m (newSampleKey callers size)).2 + size))]> m);
            startTime := startTime p |}.
Proof.
  intros Hrun Hm. apply running_eqb in Hrun.
  unfold recordSample, newSampleKey, capturedLocations, counters.
  rewrite Hrun, Hm.
  destruct (runtime_Callers callers (replicate maxLocations 0)) as [locs' numRead].
  reflexivity.
Qed.

Lemma recordSample_stopped callers size (p : Rprof) :
  ~ running p -> recordSample callers size p = Some p.
Proof.
  intros Hstop. apply not_running_eqb in Hstop.
  unfold recordSample. rewrite Hstop. reflexivity.
Qed.

Lemma recordSamples_stopped calls (p : Rprof) :
  ~ running p -> recordSamples calls p = Some p.
Proof.
  intros Hstop. induction calls as [|c calls IH]; [reflexivity|].
  cbn [recordSamples]. rewrite (recordSample_stopped _ _ _ Hstop). exact IH.
Qed.

(** The states that the profiler reaches have a map when they run. *)
Lemma NewProfiler_ok : Rprof_ok NewProfiler.
Proof. intros Hrun. exfalso. apply Hrun. reflexivity. Qed.

Lemma Start_ok now (p : Rprof) : Rprof_ok p -> Rprof_ok (Start now p).1.
Proof.
  intros Hok. unfold Start.
  destruct (startTime p =? 0); cbn; [|exact Hok].
  intros _. eexists. reflexivity.
Qed.

Lemma Stop_ok regions range now (p : Rprof) :
  Rprof_ok p -> Rprof_ok (Stop regions range now p).1.
Proof.
  intros Hok. unfold Stop.
  destruct (startTime p =? 0); cbn; [exact Hok|].
  intros Hrun. exfalso. apply Hrun. reflexivity.
Qed.

(** [recordSample] does not panic on such a state, and keeps it one. *)
Lemma recordSample_ok callers size (p : Rprof) :
  Rprof_ok p ->
  exists p', recordSample callers size p = Some p' /\ Rprof_ok p' /\
             startTime p' = startTime p.
Proof.
  intros Hok.
  destruct (Z.eq_dec (startTime p) 0) as [E|NE].
  - exists p. split; [|split; [exact Hok|reflexivity]].
    apply recordSample_stopped. unfold running. lia.
  - destruct (Hok NE) as [m Hm].
    eexists. split; [apply (recordSample_running _ _ _ m NE Hm)|].
    split; [|reflexivity].
    intros _. eexists. reflexivity.
Qed.

(** C7. Exactly two domain errors exist, each raised iff its precondition is
    violated and with the state unchanged on error: [Start] returns
    [AlreadyRunning] if and only if a window is already open, and a failing
    [Start] leaves the state (the start time and the sample map of the open
    window) untouched; [Stop] returns [NotRunning], with no profile, if and
    only if no window is open, and a failing [Stop] leaves the state
    untouched.  A call that does not fail returns no error. *)
Theorem Start_Stop_domain_errors (regions : list region) (range : mapRange)
    (now : Z) (p : Rprof) :
  ((Start now p).2 = Some AlreadyRunning <-> running p) /\
  (forall e, (Start now p).2 = Some e ->
     e = AlreadyRunning /\ (Start now p).1 = p) /\
  ((Start now p).2 = None <-> ~ running p) /\
  ((Stop regions range now p).2.2 = Some NotRunning <-> ~ running p) /\
  (forall e, (Stop regions range now p).2.2 = Some e ->
     e = NotRunning /\ (Stop regions range now p).2.1 = None /\
     (Stop regions range now p).1 = p) /\
  ((Stop regions range now p).2.2 = None <-> running p) /\
  AlreadyRunning <> NotRunning.
Proof.
  unfold Start, Stop, running, AlreadyRunning, NotRunning, errors_New.
  destruct (Z.eqb_spec (startTime p) 0) as [E|NE]; cbn.
  - repeat split; try discriminate; try tauto; intros; congruence.
  - repeat split; try discriminate; try tauto; intros; congruence.
Qed.

(** C8. For every size and stack, [recordSample] on a profiler that is not
    running, the profiler that [NewProfiler] returns included, is a no-op:
    it does not panic, returns nothing, and leaves the whole state (the
    start time and the sample map with every counter) unchanged; so does
    every sequence of such calls. *)
Theorem recordSample_not_running_noop (callers : list Z) (size : Z) (p : Rprof)
    (calls : list (list Z * Z)) :
  ~ running p ->
  recordSample callers size p = Some p /\
  recordSamples calls p = Some p /\
  recordSample callers size NewProfiler = Some NewProfiler.
Proof.
  intros Hstop. split; [|split].
  - apply recordSample_stopped, Hstop.
  - apply recordSamples_stopped, Hstop.
  - apply recordSample_stopped. intros Hrun. apply Hrun. reflexivity.
Qed.

(** ** Aggregation: the sample map after a sequence of calls *)

Lemma recordSamples_running calls : forall (p : Rprof) m,
  running p -> samples p = Some m ->
  recordSamples calls p =
    Some {| samples := Some (foldl recordInto m calls); startTime := startTime p |}.
Proof.
  induction calls as [|c calls IH]; intros q m Hrun Hm.
  - cbn. destruct q as [sm st]. cbn in *. subst sm. reflexivity.
  - cbn [recordSamples foldl].
    rewrite (recordSample_running _ _ _ m Hrun Hm). cbn [mbind option_bind].
    rewrite (IH _ (recordInto m c)); [reflexivity | exact Hrun | reflexivity].
Qed.

Lemma callsOf_app k calls calls' :
  callsOf k (calls ++ calls') = callsOf k calls ++ callsOf k calls'.
Proof. unfold callsOf. apply filter_app. Qed.

Lemma sumSizes_app calls calls' :
  sumSizes (calls ++ calls') = sumSizes calls + sumSizes calls'.
Proof.
  unfold sumSizes. induction calls as [|c calls IH]; cbn; [reflexivity|].
  rewrite IH. lia.
Qed.

(** The entry of a key after a sequence of calls: untouched when no call
    falls on the key; otherwise the count has grown by the number of the
    calls that fall on it and the bytes by the sum of their sizes. *)
Lemma foldl_recordInto_lookup k calls : forall m,
  foldl recordInto m calls !! k =
    match callsOf k calls with
    | [] => m !! k
    | cs => Some (int64 ((counters m k).1 + Z.of_nat (length cs)),
                  int64 ((counters m k).2 + sumSizes cs))
    end.
Proof.
  induction calls as [|c calls IH] using rev_ind; intros m; [reflexivity|].
  rewrite foldl_app, callsOf_app. cbn [foldl].
  unfold recordInto at 1.
  destruct (decide (newSampleKey c.1 c.2 = k)) as [E|NE].
  - assert (Hc : callsOf k [c] = [c]).
    { unfold callsOf. rewrite filter_cons_True by exact E. reflexivity. }
    rewrite Hc, E, lookup_insert_eq.
    unfold counters at 1 2. rewrite IH.
    destruct (callsOf k calls) as [|c0 cs] eqn:Hcs.
    + cbn [app length sumSizes foldr]. unfold counters.
      do 2 f_equal; f_equal; lia.
    + cbn [default from_option id fst snd]. rewrite !int64_add_l.
      change ((c0 :: cs) ++ [c]) with (c0 :: (cs ++ [c])). cbv iota.
      change (c0 :: (cs ++ [c])) with ((c0 :: cs) ++ [c]).
      rewrite length_app, sumSizes_app. cbn [length sumSizes foldr].
      do 2 f_equal; f_equal; lia.
  - assert (Hc : callsOf k [c] = []).
    { unfold callsOf. rewrite filter_cons_False by exact NE. reflexivity. }
    rewrite Hc, app_nil_r, lookup_insert_ne by exact NE. apply IH.
Qed.

(** ** The loops of [build] *)

Section Build.

Implicit Types (st : buildState) (b : profileBuilder).

Lemma visitLocation_spec st loc :
  tables_ok st ->
  tables_ok (visitLocation st loc) /\
  locIdx st ⊆ locIdx (visitLocation st loc) /\
  Profile.Mapping (p (builder (visitLocation st loc))) =
    Profile.Mapping (p (builder st)) /\
  Profile.Sample (p (builder (visitLocation st loc))) =
    Profile.Sample (p (builder st)) /\
  exists id, locs (visitLocation st loc) = locs st ++ [id] /\
             locIdx (visitLocation st loc) !! loc = Some id.
Proof.
  intros [Hb Hi Hs Hc]. unfold visitLocation.
  destruct (locIdx st !! loc) as [idx|] eqn:Hloc; cbn.
  - split; [constructor; assumption|].
    split; [reflexivity|]. do 2 (split; [reflexivity|]).
    exists idx. split; [reflexivity | exact Hloc].
  - assert (Hsize : size (<[loc := Z.of_nat (size (locIdx st)) + 1]> (locIdx st))
                    = S (size (locIdx st)))
      by (apply map_size_insert_None, Hloc).
    split; [constructor; cbn|].
    + intros a id. rewrite Hsize, lookup_insert.
      case_decide as E; intros Hid.
      * injection Hid as <-. lia.
      * apply Hb in Hid. lia.
    + intros a a' id. rewrite !lookup_insert.
      repeat case_decide; intros H1 H2; simplify_eq; try reflexivity.
      * apply Hb in H2. lia.
      * apply Hb in H1. lia.
      * eapply Hi; eassumption.
    + intros l [Hl|Hl]%elem_of_app.
      * destruct (Hs l Hl) as [Hl1 Hl2]. split; [|exact Hl2].
        rewrite lookup_insert_ne; [exact Hl1|].
        intros ->. congruence.
      * apply list_elem_of_singleton in Hl. subst l. cbn.
        split; [apply lookup_insert_eq | reflexivity].
    + intros a id. rewrite lookup_insert. case_decide as E; intros Hid.
      * injection Hid as <-. subst a.
        exists {| Location.Id := Z.of_nat (size (locIdx st)) + 1;
                  Location.MappingIndex :=
                    findMapping (Profile.Mapping (p (builder st))) loc;
                  Location.Address := loc |}.
        split; [|split; reflexivity].
        apply elem_of_app. right. apply list_elem_of_singleton. reflexivity.
      * destruct (Hc a id Hid) as (l & Hl & Hl1 & Hl2).
        exists l. split; [|split; assumption].
        apply elem_of_app. left. exact Hl.
    + split; [apply insert_subseteq, Hloc|].
      do 2 (split; [reflexivity|]).
      eexists. split; [reflexivity | apply lookup_insert_eq].
Qed.

Lemma foldl_visitLocation_spec addrs : forall st,
  tables_ok st ->
  tables_ok (foldl visitLocation st addrs) /\
  locIdx st ⊆ locIdx (foldl visitLocation st addrs) /\
  Profile.Mapping (p (builder (foldl visitLocation st addrs))) =
    Profile.Mapping (p (builder st)) /\
  Profile.Sample (p (builder (foldl visitLocation st addrs))) =
    Profile.Sample (p (builder st)) /\
  exists ids, locs (foldl visitLocation st addrs) = locs st ++ ids /\
    Forall2 (fun a id => locIdx (foldl visitLocation st addrs) !! a = Some id)
            addrs ids.
Proof.
  induction addrs as [|a addrs IH]; intros st Hok; cbn [foldl].
  - split; [exact Hok|]. split; [reflexivity|]. do 2 (split; [reflexivity|]).
    exists []. split; [symmetry; apply app_nil_r | constructor].
  - destruct (visitLocation_spec st a Hok) as (Hok1 & Hsub1 & Hm1 & Hs1 & id & Hlocs1 & Hid).
    destruct (IH _ Hok1) as (Hok2 & Hsub2 & Hm2 & Hs2 & ids & Hlocs2 & Hids).
    split; [exact Hok2|].
    split; [etrans; eassumption|].
    split; [congruence|]. split; [congruence|].
    exists (id :: ids). split.
    + rewrite Hlocs2, Hlocs1, <- app_assoc. reflexivity.
    + constructor; [|exact Hids].
      eapply lookup_weaken; eassumption.
Qed.

Lemma emitted_mono li li' kv s : li ⊆ li' -> emitted li kv s -> emitted li' kv s.
Proof.
  intros Hsub (Hids & Hv & Hl). split; [|split; assumption].
  eapply Forall2_impl; [exact Hids|].
  intros a id Ha. cbn in Ha |- *. exact (lookup_weaken _ _ _ _ Ha Hsub).
Qed.

Lemma visitSample_spec st kv :
  tables_ok st ->
  tables_ok (visitSample st kv) /\
  locIdx st ⊆ locIdx (visitSample st kv) /\
  Profile.Mapping (p (builder (visitSample st kv))) =
    Profile.Mapping (p (builder st)) /\
  exists s, Profile.Sample (p (builder (visitSample st kv))) =
              Profile.Sample (p (builder st)) ++ [s] /\
            emitted (locIdx (visitSample st kv)) kv s.
Proof.
  intros Hok. destruct kv as [k v]. unfold visitSample.
  set (st0 := {| locIdx := locIdx st; builder := builder st; locs := [] |}).
  assert (Hok0 : tables_ok st0) by (destruct Hok; constructor; assumption).
  destruct (foldl_visitLocation_spec (locations k) st0 Hok0)
    as ([Hb Hi Hs Hc] & Hsub & Hm & Hsm & ids & Hlocs & Hids).
  cbn. split; [constructor; assumption|].
  split; [exact Hsub|]. split; [exact Hm|].
  eexists. split; [rewrite Hsm; reflexivity|].
  split; [|split; reflexivity].
  cbn. unfold copyLocs. rewrite Hlocs. exact Hids.
Qed.

Lemma foldl_visitSample_spec entries : forall st,
  tables_ok st ->
  tables_ok (foldl visitSample st entries) /\
  locIdx st ⊆ locIdx (foldl visitSample st entries) /\
  Profile.Mapping (p (builder (foldl visitSample st entries))) =
    Profile.Mapping (p (builder st)) /\
  exists ss, Profile.Sample (p (builder (foldl visitSample st entries))) =
               Profile.Sample (p (builder st)) ++ ss /\
    Forall2 (emitted (locIdx (foldl visitSample st entries))) entries ss.
Proof.
  induction entries as [|kv entries IH]; intros st Hok; cbn [foldl].
  - split; [exact Hok|]. split; [reflexivity|]. split; [reflexivity|].
    exists []. split; [symmetry; apply app_nil_r | constructor].
  - destruct (visitSample_spec st kv Hok) as (Hok1 & Hsub1 & Hm1 & s & Hs1 & Hem).
    destruct (IH _ Hok1) as (Hok2 & Hsub2 & Hm2 & ss & Hs2 & Hems).
    split; [exact Hok2|].
    split; [etrans; eassumption|].
    split; [congruence|].
    exists (s :: ss). split.
    + rewrite Hs2, Hs1, <- app_assoc. reflexivity.
    + constructor; [|exact Hems].
      eapply emitted_mono; eassumption.
Qed.

(** What [build] returns for a builder whose location table is empty. *)
Lemma build_spec range samples b :
  Profile.Location (p b) = [] ->
  exists st,
    build range samples b = p (builder st) /\
    tables_ok st /\
    Profile.Mapping (p (builder st)) = Profile.Mapping (p b) /\
    Forall2 (emitted (locIdx st)) (from_option range [] samples)
            (Profile.Sample (p (builder st))).
Proof.
  intros Hloc. unfold build.
  set (st0 := {| locIdx := ∅; builder := set_Sample [] b; locs := [] |}).
  assert (Hok0 : tables_ok st0).
  { constructor; cbn.
    - intros a id Hid. rewrite lookup_empty in Hid. discriminate.
    - intros a a' id Hid. rewrite lookup_empty in Hid. discriminate.
    - rewrite Hloc. intros l Hl. inversion Hl.
    - intros a id Hid. rewrite lookup_empty in Hid. discriminate. }
  destruct (foldl_visitSample_spec (from_option range [] samples) st0 Hok0)
    as (Hok & _ & Hm & ss & Hss & Hems).
  eexists. split; [reflexivity|]. split; [exact Hok|].
  split; [exact Hm|]. rewrite Hss. exact Hems.
Qed.

End Build.

(** ** Reading a built profile *)

Lemma locationOf_lookup st a id :
  tables_ok st -> locIdx st !! a = Some id ->
  Location.Address <$> locationOf (p (builder st)) id = Some a.
Proof.
  intros [Hb Hi Hs Hc] Hid. unfold locationOf.
  destruct (List.find _ _) as [l'|] eqn:Hfind.
  - apply List.find_some in Hfind as [Hin Heq].
    apply Z.eqb_eq in Heq. apply list_elem_of_In in Hin.
    destruct (Hs l' Hin) as [Hl' _]. rewrite Heq in Hl'.
    cbn. f_equal. eapply Hi; eassumption.
  - destruct (Hc a id Hid) as (l & Hl & Hl1 & Hl2).
    apply list_elem_of_In in Hl.
    pose proof (List.find_none _ _ Hfind l Hl) as Hne. cbn in Hne.
    apply Z.eqb_neq in Hne. contradiction.
Qed.

(** The location ids of an emitted sample refer to the addresses of the
    key, slot by slot. *)
Lemma sampleAddresses_emitted st kv s :
  tables_ok st -> emitted (locIdx st) kv s ->
  sampleAddresses (p (builder st)) s = Some <$> locations kv.1.
Proof.
  intros Hok (Hids & _ & _). unfold sampleAddresses.
  induction Hids as [|a id addrs ids Hid Hids IH]; [reflexivity|].
  cbn [fmap list_fmap]. f_equal; [|exact IH].
  eapply locationOf_lookup; eassumption.
Qed.

Lemma filter_none {A : Type} (Q : A -> Prop) `{!forall x, Decision (Q x)}
    (l : list A) :
  (forall y, y ∈ l -> ~ Q y) -> filter Q l = [].
Proof.
  induction l as [|y l IH]; intros Hno; [reflexivity|].
  rewrite filter_cons_False by (apply Hno; left).
  apply IH. intros z Hz. apply Hno. right. exact Hz.
Qed.

(** A list without repetition in which [x] is the one element that
    satisfies [Q]. *)
Lemma filter_unique {A : Type} (Q : A -> Prop) `{!forall x, Decision (Q x)}
    (l : list A) (x : A) :
  NoDup l -> x ∈ l -> Q x -> (forall y, y ∈ l -> Q y -> y = x) ->
  filter Q l = [x].
Proof.
  intros Hnd Hx HQ Huniq.
  induction l as [|y l IH]; [inversion Hx|].
  apply NoDup_cons in Hnd as [Hy Hnd].
  apply elem_of_cons in Hx as [->|Hx].
  - rewrite filter_cons_True by exact HQ. f_equal.
    apply filter_none. intros z Hz HQz.
    assert (z = y) by (apply Huniq; [right; exact Hz | exact HQz]).
    subst z. contradiction.
  - rewrite filter_cons_False.
    + apply IH; [exact Hnd | exact Hx |].
      intros z Hz. apply Huniq. right. exact Hz.
    + intros HQy.
      assert (y = x) by (apply Huniq; [left | exact HQy]).
      subst y. contradiction.
Qed.

(** Filtering two lists that are related element by element, with
    predicates that the relation carries over. *)
Lemma Forall2_filter {A B : Type} (R : A -> B -> Prop)
    (Q : A -> Prop) `{!forall x, Decision (Q x)}
    (P : B -> Prop) `{!forall y, Decision (P y)} (l : list A) (k : list B) :
  (forall x y, R x y -> (Q x <-> P y)) ->
  Forall2 R l k -> Forall2 R (filter Q l) (filter P k).
Proof.
  intros HQP HR. induction HR as [|x y l k Hxy HR IH]; [constructor|].
  destruct (decide (Q x)) as [Hq|Hq].
  - rewrite (filter_cons_True Q) by exact Hq.
    rewrite (filter_cons_True P) by (apply (HQP x y Hxy), Hq).
    constructor; assumption.
  - rewrite (filter_cons_False Q) by exact Hq.
    rewrite (filter_cons_False P); [exact IH|].
    intros Hp. apply Hq. apply (HQP x y Hxy), Hp.
Qed.

Lemma Forall2_elem_of_r {A B : Type} (R : A -> B -> Prop) (l : list A)
    (k : list B) (y : B) :
  Forall2 R l k -> y ∈ k -> exists x, x ∈ l /\ R x y.
Proof.
  intros HR Hy. apply list_elem_of_lookup in Hy as [i Hi].
  destruct (Forall2_lookup_r _ _ _ _ _ HR Hi) as (x & Hx & Hxy).
  exists x. split; [|exact Hxy].
  apply list_elem_of_lookup. exists i. exact Hx.
Qed.

(** ** The mapping table of a new builder *)

Lemma addMappingEntry_spec lo hi offset file buildID fake b :
  Profile.Location (p (addMappingEntry lo hi offset file buildID fake b)) =
    Profile.Location (p b) /\
  exists m,
    Profile.Mapping (p (addMappingEntry lo hi offset file buildID fake b)) =
      Profile.Mapping (p b) ++ [m] /\
    Mapping.Id m = Z.of_nat (length (Profile.Mapping (p b))) + 1.
Proof.
  unfold addMappingEntry. destruct fake; cbn.
  - split; [reflexivity|]. eexists. split; reflexivity.
  - split; [reflexivity|]. eexists. split; reflexivity.
Qed.

Lemma mapping_ids_ok_snoc mapping m :
  mapping_ids_ok mapping ->
  Mapping.Id m = Z.of_nat (length mapping) + 1 ->
  mapping_ids_ok (mapping ++ [m]).
Proof.
  intros Hok Hm i m' Hi.
  apply lookup_app_Some in Hi as [Hi|[Hlen Hi]].
  - apply Hok, Hi.
  - apply list_lookup_singleton_Some in Hi as [Hi ->].
    rewrite Hm. lia.
Qed.

Lemma foldl_addMapping_spec regions : forall b,
  Profile.Location
    (p (foldl (fun b r => addMapping (lo r) (hi r) (offset r) (file r) (buildID r) b)
              b regions)) = Profile.Location (p b) /\
  (mapping_ids_ok (Profile.Mapping (p b)) ->
   mapping_ids_ok (Profile.Mapping
     (p (foldl (fun b r => addMapping (lo r) (hi r) (offset r) (file r) (buildID r) b)
               b regions)))).
Proof.
  induction regions as [|r regions IH]; intros b; cbn [foldl].
  - split; [reflexivity | trivial].
  - destruct (IH (addMapping (lo r) (hi r) (offset r) (file r) (buildID r) b))
      as [Hloc Hmap].
    destruct (addMappingEntry_spec (lo r) (hi r) (offset r) (file r) (buildID r) false b)
      as [Hloc1 (m & Hm & Hid)].
    fold (addMapping (lo r) (hi r) (offset r) (file r) (buildID r) b) in Hloc1, Hm.
    split; [congruence|].
    intros Hok. apply Hmap. rewrite Hm.
    apply mapping_ids_ok_snoc; assumption.
Qed.

Lemma readMapping_spec regions b :
  Profile.Location (p (readMapping regions b)) = Profile.Location (p b) /\
  (mapping_ids_ok (Profile.Mapping (p b)) ->
   mapping_ids_ok (Profile.Mapping (p (readMapping regions b)))).
Proof.
  unfold readMapping. destruct regions as [|r regions].
  - destruct (addMappingEntry_spec 0 0 0 "" "" true b) as [Hloc (m & Hm & Hid)].
    split; [exact Hloc|].
    intros Hok. rewrite Hm. apply mapping_ids_ok_snoc; assumption.
  - apply foldl_addMapping_spec.
Qed.

Lemma newProfileBuilder_Location regions ts dur :
  Profile.Location (p (newProfileBuilder regions ts dur)) = [].
Proof. unfold newProfileBuilder. rewrite (proj1 (readMapping_spec _ _)). reflexivity. Qed.

Lemma newProfileBuilder_mapping_ids regions ts dur :
  mapping_ids_ok (Profile.Mapping (p (newProfileBuilder regions ts dur))).
Proof.
  unfold newProfileBuilder. apply readMapping_spec.
  intros i m Hi. cbn in Hi. rewrite lookup_nil in Hi. discriminate.
Qed.

(** The search returns 0 or the position, counted from 1, of an entry of
    the table. *)
Lemma findMapping_from_spec addr mapping : forall i,
  0 <= i ->
  findMapping_from i mapping addr = 0 \/
  exists j m, mapping !! j = Some m /\
    findMapping_from i mapping addr = i + Z.of_nat j + 1.
Proof.
  induction mapping as [|m mapping IH]; intros i Hi; cbn [findMapping_from].
  - left. reflexivity.
  - destruct ((Mapping.MemoryStart m <=? addr) && (addr <? Mapping.MemoryLimit m)).
    + right. exists 0%nat, m. split; [reflexivity|lia].
    + destruct (IH (i + 1)) as [H0|(j & m' & Hj & Hres)]; [lia|left; exact H0|].
      right. exists (S j), m'. split; [exact Hj|]. rewrite Hres. lia.
Qed.

(** C5. Referential integrity of the built profile: for every sample map
    given to the builder (and every order in which its entries are
    visited), every location id referenced in the [LocationIndex] list of an
    emitted sample is the id of an entry of the location table, and the
    [MappingIndex] of every entry of the location table, when nonzero, is
    the id of an entry of the mapping table. *)
Theorem build_referential_integrity (regions : list region) (ts dur : Z)
    (range : mapRange) (sampleMap : option (gmap sampleKey sampleValue)) :
  (forall s id,
     s ∈ Profile.Sample (build range sampleMap (newProfileBuilder regions ts dur)) ->
     id ∈ Sample.LocationIndex s ->
     exists l,
       l ∈ Profile.Location (build range sampleMap (newProfileBuilder regions ts dur)) /\
       Location.Id l = id) /\
  (forall l,
     l ∈ Profile.Location (build range sampleMap (newProfileBuilder regions ts dur)) ->
     Location.MappingIndex l <> 0 ->
     exists m,
       m ∈ Profile.Mapping (build range sampleMap (newProfileBuilder regions ts dur)) /\
       Mapping.Id m = Location.MappingIndex l).
Proof.
  destruct (build_spec range sampleMap (newProfileBuilder regions ts dur)
              (newProfileBuilder_Location regions ts dur))
    as (st & -> & [Hb Hi Hs Hc] & Hm & Hems).
  split.
  - intros s id Hs' Hid.
    destruct (Forall2_elem_of_r _ _ _ _ Hems Hs') as (kv & _ & (Hids & _ & _)).
    destruct (Forall2_elem_of_r _ _ _ _ Hids Hid) as (a & _ & Ha).
    destruct (Hc a id Ha) as (l & Hl & Hl1 & _).
    exists l. split; assumption.
  - intros l Hl Hne. destruct (Hs l Hl) as [_ Hmi].
    unfold findMapping in Hmi.
    destruct (findMapping_from_spec (Location.Address l)
                (Profile.Mapping (p (builder st))) 0 ltac:(lia))
      as [H0|(j & m & Hj & Hres)]; [congruence|].
    exists m. split.
    + apply list_elem_of_lookup. exists j. exact Hj.
    + rewrite Hmi, Hres.
      assert (Hok : mapping_ids_ok (Profile.Mapping (p (builder st)))).
      { rewrite Hm. apply newProfileBuilder_mapping_ids. }
      rewrite (Hok j m Hj). lia.
Qed.

(** ** The keys that [recordSample] makes *)

Lemma runtime_Callers_lookup_lt callers pc i :
  (i < Nat.min (length callers) (length pc))%nat ->
  (runtime_Callers callers pc).1 !! i = callers !! i.
Proof.
  intros Hi. unfold runtime_Callers. cbn [fst].
  rewrite lookup_app_l by (rewrite length_take; lia).
  apply lookup_take_lt. lia.
Qed.

Lemma runtime_Callers_lookup_ge callers pc i :
  (Nat.min (length callers) (length pc) <= i)%nat ->
  (runtime_Callers callers pc).1 !! i = pc !! i.
Proof.
  intros Hi. unfold runtime_Callers. cbn [fst].
  rewrite lookup_app_r by (rewrite length_take; lia).
  rewrite length_take, lookup_drop. f_equal. lia.
Qed.

Lemma runtime_Callers_length callers pc :
  length (runtime_Callers callers pc).1 = length pc.
Proof.
  unfold runtime_Callers. cbn [fst].
  rewrite length_app, length_take, length_drop. lia.
Qed.

(** Return addresses are not 0: two stacks that fill the array alike have
    filled as many slots. *)
Lemma runtime_Callers_count_le callers callers' :
  0 ∉ callers' ->
  (runtime_Callers callers (replicate maxLocations 0)).1 =
  (runtime_Callers callers' (replicate maxLocations 0)).1 ->
  (Nat.min (length callers') maxLocations <= Nat.min (length callers) maxLocations)%nat.
Proof.
  intros Hnz Heq.
  destruct (le_lt_dec (Nat.min (length callers') maxLocations)
                      (Nat.min (length callers) maxLocations)) as [Hle|Hlt];
    [exact Hle|exfalso].
  set (n := Nat.min (length callers) maxLocations) in *.
  assert (Hl : (runtime_Callers callers (replicate maxLocations 0)).1 !! n = Some 0).
  { rewrite runtime_Callers_lookup_ge by (rewrite length_replicate; lia).
    apply lookup_replicate_2. lia. }
  rewrite Heq, runtime_Callers_lookup_lt in Hl by (rewrite length_replicate; lia).
  apply Hnz. apply list_elem_of_lookup. exists n. exact Hl.
Qed.

Lemma newSampleKey_locations_eq callers size callers' size' :
  0 ∉ callers -> 0 ∉ callers' ->
  locations (newSampleKey callers size) = locations (newSampleKey callers' size') ->
  nextPowerOfTwo size = nextPowerOfTwo size' ->
  newSampleKey callers size = newSampleKey callers' size'.
Proof.
  intros Hnz Hnz' Hloc Hpow. unfold newSampleKey, capturedLocations in *.
  cbn [locations] in Hloc.
  rewrite Hloc, Hpow. f_equal.
  unfold runtime_Callers. cbn [snd]. rewrite !length_replicate.
  pose proof (runtime_Callers_count_le _ _ Hnz' Hloc).
  pose proof (runtime_Callers_count_le _ _ Hnz (eq_sym Hloc)).
  f_equal. lia.
Qed.

(** The label of a bucket tells the bucket. *)
Lemma bucket_label_inj power e :
  0 <= power <= 63 -> 0 <= e <= 62 ->
  int64 (Z.shiftl 1 power) = 2 ^ e -> power = e.
Proof.
  intros Hp He Heq.
  destruct (Z.eq_dec power 63) as [->|Hne].
  - exfalso. assert (0 < 2 ^ e) by (apply Z.pow_pos_nonneg; lia).
    assert (Hneg : int64 (Z.shiftl 1 63) = - 2 ^ 63) by reflexivity.
    rewrite Hneg in Heq. lia.
  - rewrite shiftl_one_int64 in Heq by lia.
    apply (Z.pow_inj_r 2); lia.
Qed.

(** ** Aggregation does not depend on the order of the calls *)

Lemma sumSizes_Permutation calls calls' :
  calls ≡ₚ calls' -> sumSizes calls = sumSizes calls'.
Proof.
  unfold sumSizes. induction 1 as [|c l l' _ IH|c c' l|l l' l'' _ IH1 _ IH2]; cbn.
  - reflexivity.
  - rewrite IH. reflexivity.
  - lia.
  - congruence.
Qed.

Lemma foldl_recordInto_Permutation calls calls' m :
  calls ≡ₚ calls' -> foldl recordInto m calls = foldl recordInto m calls'.
Proof.
  intros Hperm. apply map_eq. intros k.
  rewrite !foldl_recordInto_lookup.
  assert (Hf : callsOf k calls ≡ₚ callsOf k calls').
  { unfold callsOf. rewrite Hperm. reflexivity. }
  pose proof (Permutation_length Hf) as Hlen.
  pose proof (sumSizes_Permutation _ _ Hf) as Hsum.
  destruct (callsOf k calls) as [|c cs], (callsOf k calls') as [|c' cs'];
    try discriminate; [reflexivity|].
  cbv zeta. rewrite Hlen, Hsum. reflexivity.
Qed.

(** ** The profile of a window *)

Lemma Start_stopped now (p : Rprof) :
  ~ running p -> Start now p = ({| samples := Some ∅; startTime := now |}, None).
Proof.
  intros Hstop. apply not_running_eqb in Hstop.
  unfold Start. rewrite Hstop. reflexivity.
Qed.

Lemma Stop_running regions range now (p : Rprof) :
  running p ->
  Stop regions range now p =
    ({| samples := samples p; startTime := 0 |},
     (Some (build range (samples p)
              (newProfileBuilder regions (startTime p) (int64 (now - startTime p)))),
      None)).
Proof.
  intros Hrun. apply running_eqb in Hrun.
  unfold Stop. rewrite Hrun. reflexivity.
Qed.

Lemma profileWindow_spec regions range now calls now' (p : Rprof) :
  ~ running p -> now <> 0 ->
  profileWindow regions range now calls now' p =
    Some ({| samples := Some (foldl recordInto ∅ calls); startTime := 0 |},
          (Some (build range (Some (foldl recordInto ∅ calls))
                   (newProfileBuilder regions now (int64 (now' - now)))),
           None)).
Proof.
  intros Hstop Hnow. unfold profileWindow.
  rewrite (Start_stopped _ _ Hstop). cbn [fst].
  rewrite (recordSamples_running calls _ ∅) by (exact Hnow || reflexivity).
  cbn [mbind option_bind]. rewrite Stop_running by exact Hnow.
  reflexivity.
Qed.

(** The sample entries of a built profile for the stack and the bucket of a
    key [k0] of the sample map, when no other key of the map has this stack
    and this bucket label: the one sample that carries the counters of
    [k0]. *)
Lemma samplesOf_build range m b k0 v0 :
  mapRange_ok range ->
  Profile.Location (p b) = [] ->
  m !! k0 = Some v0 ->
  (forall k' v', m !! k' = Some v' ->
     locations k' = locations k0 ->
     int64 (Z.shiftl 1 (sizeBucketPower k')) = int64 (Z.shiftl 1 (sizeBucketPower k0)) ->
     k' = k0) ->
  exists s,
    samplesOf (build range (Some m) b) (locations k0)
              (int64 (Z.shiftl 1 (sizeBucketPower k0))) = [s] /\
    Sample.Value s = [v0.1; v0.2].
Proof.
  intros Hrange Hloc Hk0 Huniq.
  destruct (build_spec range (Some m) b Hloc) as (st & -> & Hok & _ & Hems).
  cbn [from_option] in Hems. unfold samplesOf.
  set (Q := fun kv : sampleKey * sampleValue =>
              locations kv.1 = locations k0 /\
              int64 (Z.shiftl 1 (sizeBucketPower kv.1)) =
                int64 (Z.shiftl 1 (sizeBucketPower k0))).
  assert (HQ : filter Q (range m) = [(k0, v0)]).
  { apply filter_unique.
    - rewrite (Hrange m). apply NoDup_map_to_list.
    - rewrite (Hrange m). apply elem_of_map_to_list. exact Hk0.
    - split; reflexivity.
    - intros [k' v'] Hin [HQ1 HQ2]. cbn in HQ1, HQ2.
      rewrite (Hrange m) in Hin. apply elem_of_map_to_list in Hin.
      assert (k' = k0) by (eapply Huniq; eassumption). subst k'.
      congruence. }
  set (P := fun s : Sample.t =>
              sampleAddresses (p (builder st)) s = Some <$> locations k0 /\
              Sample.Label s =
                [ {| Label.Key := 4;
                     Label.Num := int64 (Z.shiftl 1 (sizeBucketPower k0)) |} ]).
  assert (HQP : forall kv s, emitted (locIdx st) kv s -> Q kv <-> P s).
  { intros kv s Hem. unfold Q, P.
    rewrite (sampleAddresses_emitted st kv s Hok Hem).
    destruct Hem as (_ & _ & ->). split.
    - intros [-> ->]. split; reflexivity.
    - intros [Ha Hl]. split.
      + eapply (inj (fmap Some)). exact Ha.
      + congruence. }
  pose proof (Forall2_filter _ Q P _ _ HQP Hems) as Hf.
  rewrite HQ in Hf.
  apply Forall2_cons_inv_l in Hf as (s & ss & Hem & Hnil & Hss).
  apply Forall2_nil_inv_l in Hnil. subst ss.
  exists s. split; [exact Hss|].
  destruct Hem as (_ & Hv & _). exact Hv.
Qed.

Lemma sumSizes_const size calls :
  (forall c, c ∈ calls -> c.2 = size) ->
  sumSizes calls = size * Z.of_nat (length calls).
Proof.
  unfold sumSizes. induction calls as [|c calls IH]; intros Hall.
  - cbn. lia.
  - cbn [foldr length]. rewrite IH by (intros c' Hc'; apply Hall; right; exact Hc').
    rewrite (Hall c) by left. lia.
Qed.

Lemma callsOf_elem_of k calls c :
  c ∈ callsOf k calls <-> c ∈ calls /\ newSampleKey c.1 c.2 = k.
Proof. unfold callsOf. rewrite list_elem_of_filter. tauto. Qed.

(** A key of the sample map of a window comes from one of its calls. *)
Lemma foldl_recordInto_key calls k v :
  foldl recordInto ∅ calls !! k = Some v ->
  exists c, c ∈ calls /\ newSampleKey c.1 c.2 = k.
Proof.
  rewrite foldl_recordInto_lookup.
  destruct (callsOf k calls) as [|c cs] eqn:Hcs.
  - rewrite lookup_empty. discriminate.
  - intros _. exists c. apply callsOf_elem_of. rewrite Hcs. left.
Qed.

Lemma bucket_label_inj2 power power' :
  0 <= power <= 63 -> 0 <= power' <= 63 ->
  int64 (Z.shiftl 1 power) = int64 (Z.shiftl 1 power') -> power = power'.
Proof.
  intros Hp Hp' Heq.
  destruct (Z.eq_dec power' 63) as [->|Hne'].
  - destruct (Z.eq_dec power 63) as [->|Hne]; [reflexivity|].
    symmetry. apply bucket_label_inj; [lia|lia|].
    rewrite <- Heq. apply shiftl_one_int64. lia.
  - apply bucket_label_inj; [lia|lia|].
    rewrite Heq. apply shiftl_one_int64. lia.
Qed.

(** The sample entries of the profile of a window for the stack and the
    bucket of a key of its sample map: the one sample that carries the
    counters of the key.  Return addresses are not 0. *)
Lemma window_samplesOf range calls b k0 v0 :
  mapRange_ok range ->
  (forall c, c ∈ calls -> 0 ∉ c.1) ->
  Profile.Location (p b) = [] ->
  foldl recordInto ∅ calls !! k0 = Some v0 ->
  exists s,
    samplesOf (build range (Some (foldl recordInto ∅ calls)) b) (locations k0)
              (int64 (Z.shiftl 1 (sizeBucketPower k0))) = [s] /\
    Sample.Value s = [v0.1; v0.2].
Proof.
  intros Hrange Hnzs Hloc Hk0.
  apply samplesOf_build; try assumption.
  intros k' v' Hk' Hlocs Hlabel.
  destruct (foldl_recordInto_key calls k' v' Hk') as (c & Hc & <-).
  destruct (foldl_recordInto_key calls k0 v0 Hk0) as (c0 & Hc0 & <-).
  apply newSampleKey_locations_eq; [apply Hnzs, Hc | apply Hnzs, Hc0 | exact Hlocs |].
  cbn [newSampleKey sizeBucketPower] in Hlabel.
  apply bucket_label_inj2 in Hlabel; [exact Hlabel|apply nextPowerOfTwo_range..].
Qed.

(** The profile of a window has one sample for every key of its map. *)
Lemma build_length range m b :
  mapRange_ok range ->
  Profile.Location (p b) = [] ->
  length (Profile.Sample (build range (Some m) b)) = size m.
Proof.
  intros Hrange Hloc.
  destruct (build_spec range (Some m) b Hloc) as (st & -> & _ & _ & Hems).
  apply Forall2_length in Hems. rewrite <- Hems. cbn [from_option].
  rewrite (Hrange m). apply length_map_to_list.
Qed.

(** C1. Aggregation is exact and order-insensitive: when [N] of the calls
    to [recordSample] of a window have size 4096 and an identical captured
    stack (and no call of another size falls on their key), the profile
    that the next [Stop] returns contains exactly one sample entry for that
    stack and size bucket; its values are the occurrence count [N] and the
    byte count [4096*N] (as [int64]: the numbers themselves unless they
    overflow), in whatever order the calls are made and the map is
    visited.  Return addresses are not 0. *)
Theorem aggregation_exact (regions : list region) (range : mapRange)
    (now now' : Z) (p0 : Rprof) (stack : list Z) (calls : list (list Z * Z))
    (N : nat) :
  mapRange_ok range ->
  ~ running p0 -> now <> 0 ->
  (forall c, c ∈ calls -> 0 ∉ c.1) ->
  (forall c, c ∈ calls ->
     newSampleKey c.1 c.2 = newSampleKey stack 4096 -> c.2 = 4096) ->
  length (callsOf (newSampleKey stack 4096) calls) = N -> (0 < N)%nat ->
  exists p1 prof s,
    profileWindow regions range now calls now' p0 = Some (p1, (Some prof, None)) /\
    samplesOf prof (capturedLocations stack) 4096 = [s] /\
    Sample.Value s = [int64 (Z.of_nat N); int64 (4096 * Z.of_nat N)] /\
    (4096 * Z.of_nat N <= maxInt64 ->
     Sample.Value s = [Z.of_nat N; 4096 * Z.of_nat N]) /\
    (forall calls', calls' ≡ₚ calls ->
       profileWindow regions range now calls' now' p0 = Some (p1, (Some prof, None))).
Proof.
  intros Hrange Hstop Hnow Hnzs Hsize HN Hpos.
  set (k0 := newSampleKey stack 4096) in *.
  assert (Hk0 : foldl recordInto ∅ calls !! k0 =
                Some (int64 (Z.of_nat N), int64 (4096 * Z.of_nat N))).
  { rewrite foldl_recordInto_lookup.
    assert (Hsum : sumSizes (callsOf k0 calls) = 4096 * Z.of_nat N).
    { rewrite <- HN. apply sumSizes_const. intros c Hc.
      apply callsOf_elem_of in Hc as [Hc Hk]. apply Hsize; assumption. }
    destruct (callsOf k0 calls) as [|c cs] eqn:Hcs; [cbn in HN; lia|].
    unfold counters. rewrite lookup_empty. cbn [default from_option fst snd].
    rewrite HN, Hsum. reflexivity. }
  destruct (window_samplesOf range calls
              (newProfileBuilder regions now (int64 (now' - now))) k0 _
              Hrange Hnzs (newProfileBuilder_Location _ _ _) Hk0)
    as (s & Hs & Hv).
  change (int64 (Z.shiftl 1 (sizeBucketPower k0))) with 4096 in Hs.
  change (locations k0) with (capturedLocations stack) in Hs.
  cbn [fst snd] in Hv.
  eexists _, _, s.
  split; [apply profileWindow_spec; assumption|].
  split; [exact Hs|]. split; [exact Hv|]. split.
  - intros Hmax. rewrite Hv. unfold maxInt64 in Hmax.
    rewrite !int64_id by (unfold is_int64, minInt64, maxInt64; lia).
    reflexivity.
  - intros calls' Hperm. rewrite profileWindow_spec by assumption.
    rewrite (foldl_recordInto_Permutation _ _ _ Hperm). reflexivity.
Qed.

(** ** Calls of one stack in the same and in different buckets *)

Lemma nextPowerOfTwo_bucket e s :
  1 <= e <= 62 -> 2 ^ (e - 1) < s <= 2 ^ e -> nextPowerOfTwo s = e.
Proof.
  intros He Hs.
  destruct (nextPowerOfTwo_spec s) as (Hb & Hsmall & Hbig).
  assert (Hle : nextPowerOfTwo s <= e).
  { destruct (Z_le_gt_dec (nextPowerOfTwo s) e) as [Hok|Hgt]; [exact Hok|].
    specialize (Hsmall e). lia. }
  destruct (Z.eq_dec (nextPowerOfTwo s) e) as [E|NE]; [exact E|exfalso].
  assert (Hup : s <= 2 ^ nextPowerOfTwo s) by (apply Hbig; lia).
  assert (2 ^ nextPowerOfTwo s <= 2 ^ (e - 1)) by (apply Z.pow_le_mono_r; lia).
  lia.
Qed.

Lemma newSampleKey_eq_iff callers size size' :
  newSampleKey callers size = newSampleKey callers size' <->
  nextPowerOfTwo size = nextPowerOfTwo size'.
Proof.
  split.
  - intros Heq. apply (f_equal sizeBucketPower) in Heq. exact Heq.
  - intros Heq. unfold newSampleKey. rewrite Heq. reflexivity.
Qed.

Lemma sumSizes_fmap (stack : list Z) (l : list Z) :
  sumSizes ((fun s => (stack, s)) <$> l) = foldr Z.add 0 l.
Proof.
  unfold sumSizes. induction l as [|y l IH]; [reflexivity|].
  cbn. rewrite IH. reflexivity.
Qed.

(** The sample map of three calls of one stack. *)
Lemma three_calls_lookup stack a b c x :
  foldl recordInto ∅ [(stack, a); (stack, b); (stack, c)] !! newSampleKey stack x =
    match
      filter (fun s => nextPowerOfTwo s = nextPowerOfTwo x) [a; b; c]
    with
    | [] => None
    | ss => Some (int64 (Z.of_nat (length ss)), int64 (foldr Z.add 0 ss))
    end.
Proof.
  rewrite foldl_recordInto_lookup.
  assert (Hcalls : forall l : list Z,
    callsOf (newSampleKey stack x) ((fun s => (stack, s)) <$> l) =
    (fun s => (stack, s)) <$> filter (fun s => nextPowerOfTwo s = nextPowerOfTwo x) l).
  { induction l as [|s l IH]; [reflexivity|].
    cbn [fmap list_fmap]. unfold callsOf in *.
    destruct (decide (nextPowerOfTwo s = nextPowerOfTwo x)) as [E|NE].
    - rewrite !filter_cons_True; [|exact E|apply newSampleKey_eq_iff; exact E].
      cbn [fmap list_fmap]. f_equal. exact IH.
    - rewrite !filter_cons_False; [exact IH|exact NE|].
      cbn [fst snd]. rewrite newSampleKey_eq_iff. exact NE. }
  change [(stack, a); (stack, b); (stack, c)]
    with ((fun s => (stack, s)) <$> [a; b; c]).
  rewrite Hcalls.
  destruct (filter _ [a; b; c]) as [|s ss]; [apply lookup_empty|].
  cbn [fmap list_fmap]. cbv zeta. unfold counters. rewrite lookup_empty.
  cbn [default from_option fst snd].
  change ((stack, s) :: ((fun s => (stack, s)) <$> ss))
    with ((fun s => (stack, s)) <$> (s :: ss)).
  rewrite length_fmap, sumSizes_fmap, !Z.add_0_l. reflexivity.
Qed.

Lemma three_calls_size_distinct stack a b c :
  nextPowerOfTwo a <> nextPowerOfTwo b ->
  nextPowerOfTwo a <> nextPowerOfTwo c ->
  nextPowerOfTwo b <> nextPowerOfTwo c ->
  size (foldl recordInto ∅ [(stack, a); (stack, b); (stack, c)]) = 3%nat.
Proof.
  intros Hab Hac Hbc. cbn [foldl]. unfold recordInto. cbn [fst snd].
  assert (Kab : newSampleKey stack a <> newSampleKey stack b)
    by (rewrite newSampleKey_eq_iff; exact Hab).
  assert (Kac : newSampleKey stack a <> newSampleKey stack c)
    by (rewrite newSampleKey_eq_iff; exact Hac).
  assert (Kbc : newSampleKey stack b <> newSampleKey stack c)
    by (rewrite newSampleKey_eq_iff; exact Hbc).
  rewrite map_size_insert_None
    by (rewrite !lookup_insert_ne by assumption; apply lookup_empty).
  rewrite map_size_insert_None
    by (rewrite !lookup_insert_ne by assumption; apply lookup_empty).
  rewrite map_size_insert_None by apply lookup_empty.
  rewrite map_size_empty. reflexivity.
Qed.

Lemma three_calls_size_merged stack a b c :
  nextPowerOfTwo a = nextPowerOfTwo b ->
  nextPowerOfTwo a <> nextPowerOfTwo c ->
  size (foldl recordInto ∅ [(stack, a); (stack, b); (stack, c)]) = 2%nat.
Proof.
  intros Hab Hac. cbn [foldl]. unfold recordInto. cbn [fst snd].
  assert (Kab : newSampleKey stack a = newSampleKey stack b)
    by (rewrite newSampleKey_eq_iff; exact Hab).
  assert (Kbc : newSampleKey stack b <> newSampleKey stack c)
    by (rewrite <- Kab, newSampleKey_eq_iff; exact Hac).
  rewrite map_size_insert_None
    by (rewrite <- ?Kab, !lookup_insert_ne by (rewrite ?Kab; assumption);
        apply lookup_empty).
  rewrite <- Kab.
  rewrite map_size_insert_Some by (rewrite lookup_insert_eq; eexists; reflexivity).
  rewrite map_size_insert_None by apply lookup_empty.
  rewrite map_size_empty. reflexivity.
Qed.

(** The profile of a window of three calls of one stack: the sample entry of
    the bucket of a size [x]. *)
Lemma three_calls_sample regions range now now' stack a b c x v :
  mapRange_ok range -> 0 ∉ stack ->
  foldl recordInto ∅ [(stack, a); (stack, b); (stack, c)] !! newSampleKey stack x
    = Some v ->
  exists s,
    samplesOf
      (build range (Some (foldl recordInto ∅ [(stack, a); (stack, b); (stack, c)]))
             (newProfileBuilder regions now (int64 (now' - now))))
      (capturedLocations stack) (int64 (Z.shiftl 1 (nextPowerOfTwo x))) = [s] /\
    Sample.Value s = [v.1; v.2].
Proof.
  intros Hrange Hnz Hv.
  apply (window_samplesOf range _ _ (newSampleKey stack x) v);
    [exact Hrange | | apply newProfileBuilder_Location | exact Hv].
  intros c' Hc'. repeat (apply elem_of_cons in Hc' as [->|Hc']; [exact Hnz|]).
  inversion Hc'.
Qed.

(** Decides the filter of [three_calls_lookup] once the buckets are known. *)
Ltac three_calls_value :=
  rewrite three_calls_lookup, !filter_cons, filter_nil;
  repeat match goal with
         | H : nextPowerOfTwo _ = _ |- _ => rewrite !H
         end;
  repeat (case_decide; try lia);
  cbn [length foldr]; rewrite ?int64_id by (unfold is_int64, minInt64, maxInt64; lia);
  reflexivity.

(** C4, as the code has it.  Two [recordSample] calls with the same captured
    stack and sizes 100 and 200 fall in the buckets 7 and 8 and produce two
    separate samples, with the values 1, 100 and 1, 200; two calls with the
    same stack whose sizes both lie in 129..256 (bucket 8) produce a single
    merged sample with occurrence count 2 and the sum of the two sizes as
    byte count; a call with the same stack and size 5000 falls in another
    bucket (13) and produces a separate sample entry. *)
Theorem buckets_of_one_stack (regions : list region) (range : mapRange)
    (now now' : Z) (p0 : Rprof) (stack : list Z) (s1 s2 : Z) :
  mapRange_ok range -> ~ running p0 -> now <> 0 -> 0 ∉ stack ->
  128 < s1 <= 256 -> 128 < s2 <= 256 ->
  (nextPowerOfTwo 100 = 7 /\ nextPowerOfTwo 200 = 8 /\
   nextPowerOfTwo 5000 = 13 /\
   nextPowerOfTwo s1 = 8 /\ nextPowerOfTwo s2 = 8) /\
  (exists p1 prof x y z,
     profileWindow regions range now
       [(stack, 100); (stack, 200); (stack, 5000)] now' p0
       = Some (p1, (Some prof, None)) /\
     length (Profile.Sample prof) = 3%nat /\
     samplesOf prof (capturedLocations stack) 128 = [x] /\
     Sample.Value x = [1; 100] /\
     samplesOf prof (capturedLocations stack) 256 = [y] /\
     Sample.Value y = [1; 200] /\
     samplesOf prof (capturedLocations stack) 8192 = [z] /\
     Sample.Value z = [1; 5000]) /\
  (exists p1 prof y z,
     profileWindow regions range now
       [(stack, s1); (stack, s2); (stack, 5000)] now' p0
       = Some (p1, (Some prof, None)) /\
     length (Profile.Sample prof) = 2%nat /\
     samplesOf prof (capturedLocations stack) 256 = [y] /\
     Sample.Value y = [2; s1 + s2] /\
     samplesOf prof (capturedLocations stack) 8192 = [z] /\
     Sample.Value z = [1; 5000]).
Proof.
  intros Hrange Hstop Hnow Hnz Hs1 Hs2.
  assert (H100 : nextPowerOfTwo 100 = 7) by reflexivity.
  assert (H200 : nextPowerOfTwo 200 = 8) by reflexivity.
  assert (H5000 : nextPowerOfTwo 5000 = 13) by reflexivity.
  assert (P1 : nextPowerOfTwo s1 = 8)
    by (apply nextPowerOfTwo_bucket; [lia | change (2 ^ (8 - 1)) with 128;
        change (2 ^ 8) with 256; lia]).
  assert (P2 : nextPowerOfTwo s2 = 8)
    by (apply nextPowerOfTwo_bucket; [lia | change (2 ^ (8 - 1)) with 128;
        change (2 ^ 8) with 256; lia]).
  split; [repeat split; assumption|]. split.
  - destruct (three_calls_sample regions range now now' stack 100 200 5000 100 (1, 100)
                Hrange Hnz) as (x & Hx & Hxv); [three_calls_value|].
    destruct (three_calls_sample regions range now now' stack 100 200 5000 200 (1, 200)
                Hrange Hnz) as (y & Hy & Hyv); [three_calls_value|].
    destruct (three_calls_sample regions range now now' stack 100 200 5000 5000 (1, 5000)
                Hrange Hnz) as (z & Hz & Hzv); [three_calls_value|].
    eexists _, _, x, y, z.
    split; [apply profileWindow_spec; assumption|].
    split.
    { rewrite build_length by (exact Hrange || apply newProfileBuilder_Location).
      apply three_calls_size_distinct; rewrite ?H100, ?H200, ?H5000; lia. }
    repeat split; assumption.
  - destruct (three_calls_sample regions range now now' stack s1 s2 5000 s1 (2, s1 + s2)
                Hrange Hnz) as (y & Hy & Hyv).
    { rewrite three_calls_lookup, !filter_cons, filter_nil.
      rewrite P1, P2, H5000.
      repeat (case_decide; try lia).
      cbn [length foldr].
      rewrite !int64_id by (unfold is_int64, minInt64, maxInt64; lia).
      do 2 f_equal. lia. }
    destruct (three_calls_sample regions range now now' stack s1 s2 5000 5000 (1, 5000)
                Hrange Hnz) as (z & Hz & Hzv).
    { rewrite three_calls_lookup, !filter_cons, filter_nil.
      rewrite P1, P2, H5000.
      repeat (case_decide; try lia). reflexivity. }
    rewrite P1 in Hy.
    eexists _, _, y, z.
    split; [apply profileWindow_spec; assumption|].
    split.
    { rewrite build_length by (exact Hrange || apply newProfileBuilder_Location).
      apply three_calls_size_merged; rewrite ?P1, ?P2, ?H5000; lia. }
    repeat split; assumption.
Qed.

(** ** The read adapters *)

Lemma recordInto_lookup m callers n :
  recordInto m (callers, n) !! newSampleKey callers n =
    Some (int64 ((counters m (newSampleKey callers n)).1 + 1),
          int64 ((counters m (newSampleKey callers n)).2 + n)) /\
  (forall k, k <> newSampleKey callers n -> recordInto m (callers, n) !! k = m !! k).
Proof.
  unfold recordInto. cbn [fst snd]. split.
  - apply lookup_insert_eq.
  - intros k Hk. apply lookup_insert_ne. congruence.
Qed.

(** C10. The read adapters record every [Read] and [ReadAt] call, also one
    that returns 0 bytes or an error (such as [io.EOF]): while the profiler
    is running, the call increments the occurrence count of the key of its
    stack and of the bucket of the returned [n] by 1 and the byte count by
    [n] (0 is in bucket 0), leaves every other key as it is, and returns
    the reader, the buffer and the results [(n, err)] of the underlying
    reader unchanged. *)
Theorem read_adapters_record_every_call {R RA : Type}
    `{!io_Reader R} `{!io_Closer R} `{!io_ReaderAt RA}
    (callers : list Z) (r : R) (ra : RA) (buf : list Byte.byte) (off : Z)
    (p : Rprof) (m : gmap sampleKey sampleValue) :
  running p -> samples p = Some m ->
  (forall r' buf' n err, io_Read r buf = (r', buf', (n, err)) ->
     RprofReader_Read callers r buf p =
       Some (mkReadResult
               {| samples := Some (recordInto m (callers, n));
                  startTime := startTime p |} r' buf' (n, err)) /\
     RprofReadCloser_Read callers r buf p =
       Some (mkReadResult
               {| samples := Some (recordInto m (callers, n));
                  startTime := startTime p |} r' buf' (n, err))) /\
  (forall ra' buf' n err, io_ReadAt ra buf off = (ra', buf', (n, err)) ->
     RprofReaderAt_ReadAt callers ra buf off p =
       Some (mkReadResult
               {| samples := Some (recordInto m (callers, n));
                  startTime := startTime p |} ra' buf' (n, err))) /\
  (forall n,
     recordInto m (callers, n) !! newSampleKey callers n =
       Some (int64 ((counters m (newSampleKey callers n)).1 + 1),
             int64 ((counters m (newSampleKey callers n)).2 + n)) /\
     (forall k, k <> newSampleKey callers n ->
        recordInto m (callers, n) !! k = m !! k)) /\
  sizeBucketPower (newSampleKey callers 0) = 0.
Proof.
  intros Hrun Hm. split; [|split; [|split; [|reflexivity]]].
  - intros r' buf' n err Hread.
    unfold RprofReader_Read, RprofReadCloser_Read. rewrite Hread.
    rewrite (recordSample_running callers n p m Hrun Hm).
    split; reflexivity.
  - intros ra' buf' n err Hread.
    unfold RprofReaderAt_ReadAt. rewrite Hread.
    rewrite (recordSample_running callers n p m Hrun Hm). reflexivity.
  - intros n. apply recordInto_lookup.
Qed.

(** ** What [build] does with the unused slots and with high addresses *)

Lemma capturedLocations_length callers :
  length (capturedLocations callers) = maxLocations.
Proof.
  unfold capturedLocations. rewrite runtime_Callers_length.
  apply length_replicate.
Qed.

Lemma windowProfile_spec regions range now calls now' (p0 : Rprof) :
  ~ running p0 -> now <> 0 ->
  windowProfile regions range now calls now' p0 =
    Some (build range (Some (foldl recordInto ∅ calls))
            (newProfileBuilder regions now (int64 (now' - now)))).
Proof.
  intros Hstop Hnow. unfold windowProfile.
  rewrite profileWindow_spec by assumption. reflexivity.
Qed.

(** Every sample of the profile of a window has a location id for each of
    the 128 slots of the array of its key. *)
Lemma window_LocationIndex_length regions range now calls now' (p0 : Rprof) prof smp :
  mapRange_ok range -> ~ running p0 -> now <> 0 ->
  windowProfile regions range now calls now' p0 = Some prof ->
  smp ∈ Profile.Sample prof ->
  length (Sample.LocationIndex smp) = maxLocations.
Proof.
  intros Hrange Hstop Hnow Hprof Hin.
  rewrite windowProfile_spec in Hprof by assumption.
  injection Hprof as <-.
  destruct (build_spec range (Some (foldl recordInto ∅ calls))
              (newProfileBuilder regions now (int64 (now' - now)))
              (newProfileBuilder_Location _ _ _))
    as (st & Hb & _ & _ & Hems).
  rewrite Hb in Hin. cbn [from_option] in Hems.
  destruct (Forall2_elem_of_r _ _ _ _ Hems Hin) as ([k v] & Hkv & Hids & _ & _).
  apply Forall2_length in Hids. rewrite <- Hids. cbn [fst].
  rewrite (Hrange _) in Hkv. apply elem_of_map_to_list in Hkv.
  destruct (foldl_recordInto_key calls k v Hkv) as (c & _ & <-).
  apply capturedLocations_length.
Qed.

(** The search in the mapping table that holds the fake mapping only. *)
Lemma findMapping_fake ts dur addr :
  findMapping (Profile.Mapping (p (newProfileBuilder [] ts dur))) addr =
    if (0 <=? addr) && (addr <? 2 ^ 63) then 1 else 0.
Proof. reflexivity. Qed.

(** ** The theorems at concrete inputs *)

(** Proves a decidable proposition by evaluating its decision. *)
Ltac by_evaluation :=
  match goal with
  | |- ?P => refine (@bool_decide_unpack P _ _); vm_compute; exact I
  end.

Lemma map_to_list_ok : mapRange_ok map_to_list.
Proof. intros m. reflexivity. Defined.

Lemma NewProfiler_stopped : ~ running NewProfiler.
Proof. intros Hrun. apply Hrun. reflexivity. Defined.

Lemma exampleCalls_nonzero : forall c, c ∈ exampleCalls -> 0 ∉ c.1.
Proof. apply Forall_forall. by_evaluation. Defined.

Lemma exampleCalls_sizes : forall c, c ∈ exampleCalls ->
  newSampleKey c.1 c.2 = newSampleKey exampleStack 4096 -> c.2 = 4096.
Proof.
  apply (proj1 (Forall_forall
    (fun c => newSampleKey c.1 c.2 = newSampleKey exampleStack 4096 -> c.2 = 4096)
    exampleCalls)).
  by_evaluation.
Defined.

Lemma aggregation_exact_witness :
  exists p1 prof s,
    profileWindow [] map_to_list 1 exampleCalls 5 NewProfiler
      = Some (p1, (Some prof, None)) /\
    samplesOf prof (capturedLocations exampleStack) 4096 = [s] /\
    Sample.Value s = [int64 (Z.of_nat 3); int64 (4096 * Z.of_nat 3)] /\
    (4096 * Z.of_nat 3 <= maxInt64 ->
     Sample.Value s = [Z.of_nat 3; 4096 * Z.of_nat 3]) /\
    (forall calls', calls' ≡ₚ exampleCalls ->
       profileWindow [] map_to_list 1 calls' 5 NewProfiler
         = Some (p1, (Some prof, None))).
Proof.
  apply (aggregation_exact [] map_to_list 1 5 NewProfiler exampleStack exampleCalls 3).
  - exact map_to_list_ok.
  - exact NewProfiler_stopped.
  - lia.
  - exact exampleCalls_nonzero.
  - exact exampleCalls_sizes.
  - vm_compute. reflexivity.
  - lia.
Defined.

Lemma recordSample_not_running_noop_witness :
  ~ running exampleStopped /\
  recordSample exampleStack 4096 exampleStopped = Some exampleStopped /\
  recordSamples exampleCalls exampleStopped = Some exampleStopped /\
  recordSample exampleStack 4096 NewProfiler = Some NewProfiler.
Proof.
  assert (Hstop : ~ running exampleStopped)
    by (intros Hrun; apply Hrun; reflexivity).
  split; [exact Hstop|].
  apply (recordSample_not_running_noop exampleStack 4096 exampleStopped exampleCalls).
  exact Hstop.
Defined.

Lemma exampleStack_nonzero : 0 ∉ exampleStack.
Proof. by_evaluation. Defined.

Lemma buckets_of_one_stack_witness :
  (nextPowerOfTwo 100 = 7 /\ nextPowerOfTwo 200 = 8 /\
   nextPowerOfTwo 5000 = 13 /\
   nextPowerOfTwo 150 = 8 /\ nextPowerOfTwo 250 = 8) /\
  (exists p1 prof x y z,
     profileWindow [] map_to_list 1
       [(exampleStack, 100); (exampleStack, 200); (exampleStack, 5000)] 5 NewProfiler
       = Some (p1, (Some prof, None)) /\
     length (Profile.Sample prof) = 3%nat /\
     samplesOf prof (capturedLocations exampleStack) 128 = [x] /\
     Sample.Value x = [1; 100] /\
     samplesOf prof (capturedLocations exampleStack) 256 = [y] /\
     Sample.Value y = [1; 200] /\
     samplesOf prof (capturedLocations exampleStack) 8192 = [z] /\
     Sample.Value z = [1; 5000]) /\
  (exists p1 prof y z,
     profileWindow [] map_to_list 1
       [(exampleStack, 150); (exampleStack, 250); (exampleStack, 5000)] 5 NewProfiler
       = Some (p1, (Some prof, None)) /\
     length (Profile.Sample prof) = 2%nat /\
     samplesOf prof (capturedLocations exampleStack) 256 = [y] /\
     Sample.Value y = [2; 150 + 250] /\
     samplesOf prof (capturedLocations exampleStack) 8192 = [z] /\
     Sample.Value z = [1; 5000]).
Proof.
  apply (buckets_of_one_stack [] map_to_list 1 5 NewProfiler exampleStack 150 250).
  - exact map_to_list_ok.
  - exact NewProfiler_stopped.
  - lia.
  - exact exampleStack_nonzero.
  - lia.
  - lia.
Defined.

(** Against C4 as the specification states it, at a concrete input: the
    sizes 100 and 200 do not fall in one bucket (100 is in bucket 7, not 8),
    and the profile of a window with the two calls has two samples, with the
    values 1, 100 and 1, 200, and no sample with the values 2, 300. *)
Lemma sizes_100_and_200_are_not_merged :
  nextPowerOfTwo 100 = 7 /\ nextPowerOfTwo 100 <> 8 /\ nextPowerOfTwo 200 = 8 /\
  Profile.Sample <$>
    windowProfile [] map_to_list 1
      [(exampleStack, 100); (exampleStack, 200)] 5 NewProfiler
  = Some
      [ {| Sample.LocationIndex := [1; 2; 3] ++ replicate 125 4;
           Sample.Value := [1; 100];
           Sample.Label := [ {| Label.Key := 4; Label.Num := 128 |} ] |};
        {| Sample.LocationIndex := [1; 2; 3] ++ replicate 125 4;
           Sample.Value := [1; 200];
           Sample.Label := [ {| Label.Key := 4; Label.Num := 256 |} ] |} ] /\
  (forall prof smp,
     windowProfile [] map_to_list 1
       [(exampleStack, 100); (exampleStack, 200)] 5 NewProfiler = Some prof ->
     smp ∈ Profile.Sample prof -> Sample.Value smp <> [2; 300]).
Proof.
  assert (Hsamples :
    Profile.Sample <$>
      windowProfile [] map_to_list 1
        [(exampleStack, 100); (exampleStack, 200)] 5 NewProfiler
    = Some
        [ {| Sample.LocationIndex := [1; 2; 3] ++ replicate 125 4;
             Sample.Value := [1; 100];
             Sample.Label := [ {| Label.Key := 4; Label.Num := 128 |} ] |};
          {| Sample.LocationIndex := [1; 2; 3] ++ replicate 125 4;
             Sample.Value := [1; 200];
             Sample.Label := [ {| Label.Key := 4; Label.Num := 256 |} ] |} ])
    by (vm_compute; reflexivity).
  split; [reflexivity|]. split; [discriminate|]. split; [reflexivity|].
  split; [exact Hsamples|].
  intros prof smp Hprof Hin. rewrite Hprof in Hsamples.
  injection Hsamples as Hsamples. rewrite Hsamples in Hin.
  apply elem_of_cons in Hin as [->|Hin]; [discriminate|].
  apply elem_of_cons in Hin as [->|Hin]; [discriminate|].
  inversion Hin.
Qed.

(** C3, the code at a concrete input: [build] visits the whole array of a
    key, not its first [numLocations] slots.  For a key of which two slots
    are used, the sample has 128 location ids, 126 of them the id of a
    location with the address 0 that stands for the unused slots; and every
    sample of the profile of every window has 128 location ids. *)
Theorem build_visits_unused_slots :
  numLocations twoFrameKey = 2 /\
  locations twoFrameKey = [4198400; 4202496] ++ replicate 126 0 /\
  Sample.LocationIndex <$>
    Profile.Sample (build map_to_list (Some {[ twoFrameKey := (1, 4096) ]})
                          (newProfileBuilder [] 1 4))
    = [ [1; 2] ++ replicate 126 3 ] /\
  Profile.Location (build map_to_list (Some {[ twoFrameKey := (1, 4096) ]})
                          (newProfileBuilder [] 1 4))
    = [ {| Location.Id := 1; Location.MappingIndex := 1; Location.Address := 4198400 |};
        {| Location.Id := 2; Location.MappingIndex := 1; Location.Address := 4202496 |};
        {| Location.Id := 3; Location.MappingIndex := 1; Location.Address := 0 |} ] /\
  (forall regions range now calls now' (p0 : Rprof) prof smp,
     mapRange_ok range -> ~ running p0 -> now <> 0 ->
     windowProfile regions range now calls now' p0 = Some prof ->
     smp ∈ Profile.Sample prof ->
     length (Sample.LocationIndex smp) = 128%nat).
Proof.
  split; [reflexivity|]. split; [reflexivity|].
  split; [vm_compute; reflexivity|]. split; [vm_compute; reflexivity|].
  intros regions range now calls now' p0 prof smp.
  apply window_LocationIndex_length.
Qed.

(** C6, the code at a concrete input: the limit of the fake mapping is
    [1 << 63], not the largest address; the search finds the fake mapping
    for the addresses below [2^63] only, and a location with the address
    [2^63] gets the mapping id 0. *)
Theorem fake_mapping_misses_high_addresses :
  Profile.Mapping (p (newProfileBuilder [] 1 4)) =
    [ {| Mapping.Id := 1; Mapping.MemoryStart := 0;
         Mapping.MemoryLimit := 2 ^ 63; Mapping.FileOffset := 0;
         Mapping.Filename := 0; Mapping.BuildId := 0 |} ] /\
  2 ^ 63 < maxUint64 /\
  (forall addr, 0 <= addr < 2 ^ 63 ->
     findMapping (Profile.Mapping (p (newProfileBuilder [] 1 4))) addr = 1) /\
  (forall addr, 2 ^ 63 <= addr ->
     findMapping (Profile.Mapping (p (newProfileBuilder [] 1 4))) addr = 0) /\
  findMapping (Profile.Mapping (p (newProfileBuilder [] 1 4))) maxUint64 = 0 /\
  Profile.Location (build map_to_list (Some {[ highAddressKey := (1, 4096) ]})
                          (newProfileBuilder [] 1 4))
    = [ {| Location.Id := 1; Location.MappingIndex := 0; Location.Address := 2 ^ 63 |};
        {| Location.Id := 2; Location.MappingIndex := 1; Location.Address := 0 |} ].
Proof.
  split; [reflexivity|]. split; [reflexivity|].
  split.
  { intros addr Haddr. rewrite findMapping_fake.
    destruct (Z.leb_spec 0 addr); [|lia].
    destruct (Z.ltb_spec addr (2 ^ 63)); [reflexivity|lia]. }
  split.
  { intros addr Haddr. rewrite findMapping_fake.
    destruct (Z.ltb_spec addr (2 ^ 63)); [lia|].
    rewrite andb_false_r. reflexivity. }
  split; vm_compute; reflexivity.
Qed.

Lemma read_adapters_record_every_call_witness :
  running exampleRunning /\
  samples exampleRunning = Some ∅ /\
  io_Read exampleReader exampleBuffer
    = (exampleReader, exampleBuffer, (0, Some io_EOF)) /\
  io_ReadAt exampleReader exampleBuffer 7
    = (exampleReader, exampleBuffer, (0, Some io_EOF)) /\
  RprofReader_Read exampleStack exampleReader exampleBuffer exampleRunning =
    Some (mkReadResult
            {| samples := Some (recordInto ∅ (exampleStack, 0)); startTime := 1 |}
            exampleReader exampleBuffer (0, Some io_EOF)) /\
  RprofReaderAt_ReadAt exampleStack exampleReader exampleBuffer 7 exampleRunning =
    Some (mkReadResult
            {| samples := Some (recordInto ∅ (exampleStack, 0)); startTime := 1 |}
            exampleReader exampleBuffer (0, Some io_EOF)) /\
  recordInto ∅ (exampleStack, 0) !! newSampleKey exampleStack 0 = Some (1, 0) /\
  sizeBucketPower (newSampleKey exampleStack 0) = 0.
Proof.
  assert (Hrun : running exampleRunning) by (unfold running; cbn; lia).
  destruct (read_adapters_record_every_call (R := bytesReader) (RA := bytesReader)
              exampleStack exampleReader exampleReader exampleBuffer 7
              exampleRunning ∅ Hrun eq_refl) as (HR & HRA & Hlook & Hb).
  split; [exact Hrun|]. split; [reflexivity|].
  split; [reflexivity|]. split; [reflexivity|].
  split; [exact (proj1 (HR exampleReader exampleBuffer 0 (Some io_EOF) eq_refl))|].
  split; [exact (HRA exampleReader exampleBuffer 0 (Some io_EOF) eq_refl)|].
  split; [exact (proj1 (Hlook 0))|exact Hb].
Defined.

(** ** Further properties of the size buckets *)

(** X1. [nextPowerOfTwo] is monotone: a larger size never falls in a smaller
    bucket. *)
Theorem nextPowerOfTwo_monotone (s1 s2 : Z) :
  s1 <= s2 -> nextPowerOfTwo s1 <= nextPowerOfTwo s2.
Proof.
  intros Hle.
  destruct (nextPowerOfTwo_spec s1) as (Hb1 & Hsmall1 & Hbig1).
  destruct (nextPowerOfTwo_spec s2) as (Hb2 & Hsmall2 & Hbig2).
  destruct (Z_le_gt_dec (nextPowerOfTwo s1) (nextPowerOfTwo s2)) as [Hok|Hgt];
    [exact Hok|exfalso].
  assert (H2 : s2 <= 2 ^ nextPowerOfTwo s2) by (apply Hbig2; lia).
  specialize (Hsmall1 (nextPowerOfTwo s2)). lia.
Qed.

Lemma nextPowerOfTwo_monotone_witness :
  1000 <= 70000 /\ nextPowerOfTwo 1000 <= nextPowerOfTwo 70000.
Proof.
  split; [lia|]. apply (nextPowerOfTwo_monotone 1000 70000). lia.
Defined.

(** The byte value of a bucket.  For a size from 1 to [2^62] it is the power
    of two [2^(nextPowerOfTwo size)], at least the size and less than twice
    the size; sizes up to 1 have the value 1; for a size above [2^62] the
    shift overflows the [int64] and the value is [-2^63]. *)
Lemma bucketLabel_bounds (size : Z) :
  (1 <= size <= 2 ^ 62 ->
     bucketLabel size = 2 ^ nextPowerOfTwo size /\
     size <= bucketLabel size < 2 * size) /\
  (size <= 1 -> bucketLabel size = 1) /\
  (2 ^ 62 < size -> bucketLabel size = minInt64).
Proof.
  unfold bucketLabel.
  destruct (nextPowerOfTwo_spec size) as (Hb & Hsmall & Hbig).
  split; [|split].
  - intros Hsize.
    assert (Hle : nextPowerOfTwo size <= 62).
    { destruct (Z_le_gt_dec (nextPowerOfTwo size) 62) as [Hok|Hgt]; [exact Hok|].
      specialize (Hsmall 62). lia. }
    rewrite shiftl_one_int64 by lia.
    split; [reflexivity|]. split; [apply Hbig; lia|].
    destruct (Z.eq_dec (nextPowerOfTwo size) 0) as [E|NE].
    + rewrite E. change (2 ^ 0) with 1. lia.
    + specialize (Hsmall (nextPowerOfTwo size - 1)).
      replace (2 ^ nextPowerOfTwo size)
        with (2 * 2 ^ (nextPowerOfTwo size - 1)).
      * lia.
      * rewrite <- Z.pow_succ_r by lia. f_equal. lia.
  - intros Hsize.
    assert (E : nextPowerOfTwo size = 0).
    { destruct (Z.eq_dec (nextPowerOfTwo size) 0) as [E|NE]; [exact E|].
      specialize (Hsmall 0). change (2 ^ 0) with 1 in Hsmall. lia. }
    rewrite E. reflexivity.
  - intros Hsize.
    assert (E : nextPowerOfTwo size = 63).
    { destruct (Z.eq_dec (nextPowerOfTwo size) 63) as [E|NE]; [exact E|].
      assert (Hup : size <= 2 ^ nextPowerOfTwo size) by (apply Hbig; lia).
      assert (2 ^ nextPowerOfTwo size <= 2 ^ 62) by (apply Z.pow_le_mono_r; lia).
      lia. }
    rewrite E. reflexivity.
Qed.

Lemma exampleProfile_window :
  windowProfile [] map_to_list 1 exampleCalls 5 NewProfiler = Some exampleProfile.
Proof. apply windowProfile_spec; [exact NewProfiler_stopped | lia]. Defined.

(** The samples of the profile of a window are the samples that [build]
    emits for the entries of its sample map. *)
Lemma window_samples_emitted regions range now calls now' (p0 : Rprof) prof :
  ~ running p0 -> now <> 0 ->
  windowProfile regions range now calls now' p0 = Some prof ->
  exists st,
    prof = p (builder st) /\ tables_ok st /\
    Profile.Mapping prof =
      Profile.Mapping (p (newProfileBuilder regions now (int64 (now' - now)))) /\
    Forall2 (emitted (locIdx st)) (range (foldl recordInto ∅ calls))
            (Profile.Sample prof).
Proof.
  intros Hstop Hnow Hprof.
  rewrite windowProfile_spec in Hprof by assumption. injection Hprof as <-.
  destruct (build_spec range (Some (foldl recordInto ∅ calls))
              (newProfileBuilder regions now (int64 (now' - now)))
              (newProfileBuilder_Location _ _ _))
    as (st & Hb & Hok & Hm & Hems).
  cbn [from_option] in Hems.
  exists st. rewrite Hb. split; [reflexivity|]. split; [exact Hok|].
  split; [exact Hm | exact Hems].
Qed.

(** X2. Every sample of the profile of a window has one label, under the
    string index 4, and its number is the byte value of the bucket of a call
    of the window.  For a size from 1 to [2^62] that value is the power of
    two [2^(nextPowerOfTwo size)], at least the size and less than twice the
    size; for a size above [2^62] the shift [1 << 63] overflows the [int64]
    and the label is [-2^63]. *)
Theorem window_sample_labels (regions : list region) (range : mapRange)
    (now now' : Z) (calls : list (list Z * Z)) (p0 : Rprof) (prof : Profile.t) :
  mapRange_ok range -> ~ running p0 -> now <> 0 ->
  windowProfile regions range now calls now' p0 = Some prof ->
  Forall (fun smp =>
            exists c, c ∈ calls /\
              Sample.Label smp =
                [ {| Label.Key := 4; Label.Num := bucketLabel c.2 |} ] /\
              (1 <= c.2 <= 2 ^ 62 ->
                 bucketLabel c.2 = 2 ^ nextPowerOfTwo c.2 /\
                 c.2 <= bucketLabel c.2 < 2 * c.2) /\
              (2 ^ 62 < c.2 -> bucketLabel c.2 = minInt64))
         (Profile.Sample prof).
Proof.
  intros Hrange Hstop Hnow Hprof.
  destruct (window_samples_emitted _ _ _ _ _ _ _ Hstop Hnow Hprof)
    as (st & _ & _ & _ & Hems).
  apply Forall_forall. intros smp Hin.
  destruct (Forall2_elem_of_r _ _ _ _ Hems Hin) as ([k v] & Hkv & _ & _ & Hlabel).
  rewrite (Hrange _) in Hkv. apply elem_of_map_to_list in Hkv.
  destruct (foldl_recordInto_key calls k v Hkv) as (c & Hc & <-).
  exists c. split; [exact Hc|]. split; [exact Hlabel|].
  destruct (bucketLabel_bounds c.2) as (H1 & _ & H3). split; assumption.
Qed.

Lemma window_sample_labels_witness :
  Forall (fun smp =>
            exists c, c ∈ exampleCalls /\
              Sample.Label smp =
                [ {| Label.Key := 4; Label.Num := bucketLabel c.2 |} ] /\
              (1 <= c.2 <= 2 ^ 62 ->
                 bucketLabel c.2 = 2 ^ nextPowerOfTwo c.2 /\
                 c.2 <= bucketLabel c.2 < 2 * c.2) /\
              (2 ^ 62 < c.2 -> bucketLabel c.2 = minInt64))
         (Profile.Sample exampleProfile).
Proof.
  apply (window_sample_labels [] map_to_list 1 5 exampleCalls NewProfiler exampleProfile).
  - exact map_to_list_ok.
  - exact NewProfiler_stopped.
  - lia.
  - exact exampleProfile_window.
Defined.

(** ** Sequences of calls *)

Lemma runCall_ok regions range c (p : Rprof) :
  Rprof_ok p -> exists p', runCall regions range c p = Some p' /\ Rprof_ok p'.
Proof.
  intros Hok. destruct c as [now|now|callers size]; cbn [runCall].
  - eexists. split; [reflexivity|]. apply Start_ok, Hok.
  - eexists. split; [reflexivity|]. apply Stop_ok, Hok.
  - destruct (recordSample_ok callers size p Hok) as (p' & Hp' & Hok' & _).
    exists p'. split; assumption.
Qed.

Lemma runCalls_ok regions range cs : forall (p : Rprof),
  Rprof_ok p -> exists p', runCalls regions range cs p = Some p' /\ Rprof_ok p'.
Proof.
  induction cs as [|c cs IH]; intros q Hok; cbn [runCalls].
  - exists q. split; [reflexivity | exact Hok].
  - destruct (runCall_ok regions range c q Hok) as (q' & Hq' & Hok').
    rewrite Hq'. cbn [mbind option_bind]. apply IH, Hok'.
Qed.

(** X3. No sequence of [Start], [Stop] and [recordSample] calls on a new
    profiler panics: [recordSample] never assigns to the [nil] map that
    [NewProfiler] leaves, because it writes only while the profiler runs and
    only [Start], which installs a map, makes it run. *)
Theorem calls_never_panic (regions : list region) (range : mapRange)
    (cs : list call) :
  exists p', runCalls regions range cs NewProfiler = Some p' /\
    (running p' -> is_Some (samples p')).
Proof. apply runCalls_ok, NewProfiler_ok. Qed.

(** ** Successive windows *)

(** X4. Nothing is carried from one window to the next, and calls between
    two windows are in neither: after a window, calls to [recordSample]
    while the profiler is stopped, and a second window, each of the two
    profiles is the profile that its own calls give on a new profiler. *)
Theorem windows_are_independent (regions : list region) (range : mapRange)
    (now1 now1' now2 now2' : Z) (calls1 between calls2 : list (list Z * Z))
    (p0 : Rprof) :
  ~ running p0 -> now1 <> 0 -> now2 <> 0 ->
  exists p1 prof1 p2 prof2,
    profileWindow regions range now1 calls1 now1' p0
      = Some (p1, (Some prof1, None)) /\
    recordSamples between p1 = Some p1 /\
    profileWindow regions range now2 calls2 now2' p1
      = Some (p2, (Some prof2, None)) /\
    windowProfile regions range now1 calls1 now1' NewProfiler = Some prof1 /\
    windowProfile regions range now2 calls2 now2' NewProfiler = Some prof2.
Proof.
  intros Hstop Hnow1 Hnow2.
  eexists _, _, _, _.
  split; [apply profileWindow_spec; assumption|].
  assert (Hstop1 : ~ running
            {| samples := Some (foldl recordInto ∅ calls1); startTime := 0 |})
    by (intros Hrun; apply Hrun; reflexivity).
  split; [apply recordSamples_stopped, Hstop1|].
  split; [apply profileWindow_spec; assumption|].
  split; apply windowProfile_spec; (exact NewProfiler_stopped || assumption).
Qed.

Lemma windows_are_independent_witness :
  exists p1 prof1 p2 prof2,
    profileWindow [] map_to_list 1 exampleCalls 5 exampleStopped
      = Some (p1, (Some prof1, None)) /\
    recordSamples [(exampleStack, 200)] p1 = Some p1 /\
    profileWindow [] map_to_list 7 [(exampleStack, 100)] 9 p1
      = Some (p2, (Some prof2, None)) /\
    windowProfile [] map_to_list 1 exampleCalls 5 NewProfiler = Some prof1 /\
    windowProfile [] map_to_list 7 [(exampleStack, 100)] 9 NewProfiler = Some prof2.
Proof.
  apply (windows_are_independent [] map_to_list 1 5 7 9 exampleCalls
           [(exampleStack, 200)] [(exampleStack, 100)] exampleStopped).
  - intros Hrun. apply Hrun. reflexivity.
  - lia.
  - lia.
Defined.

(** X5. The start time is the running flag, so the clock reading 0 is not a
    start: on a stopped profiler [Start] returns no error and installs an
    empty map whatever the clock reads, but the profiler runs afterwards if
    and only if the reading was not 0.  After a [Start] at the reading 0
    [recordSample] changes nothing, [Stop] fails with [NotRunning] and a
    second [Start] succeeds again. *)
Theorem Start_at_clock_reading (regions : list region) (range : mapRange)
    (now now' : Z) (callers : list Z) (size : Z) (p : Rprof) :
  ~ running p ->
  (Start now p).2 = None /\
  samples (Start now p).1 = Some ∅ /\
  (running (Start now p).1 <-> now <> 0) /\
  recordSample callers size (Start 0 p).1 = Some (Start 0 p).1 /\
  (Stop regions range now' (Start 0 p).1).2 = (None, Some NotRunning) /\
  (Start now (Start 0 p).1).2 = None.
Proof.
  intros Hstop. rewrite !(Start_stopped _ _ Hstop). cbn [fst snd samples].
  assert (Hzero : ~ running {| samples := Some ∅; startTime := 0 |})
    by (intros Hrun; apply Hrun; reflexivity).
  split; [reflexivity|]. split; [reflexivity|].
  split; [unfold running; cbn; tauto|].
  split; [apply recordSample_stopped, Hzero|].
  split; [reflexivity|].
  rewrite (Start_stopped _ _ Hzero). reflexivity.
Qed.

Lemma Start_at_clock_reading_witness :
  ~ running exampleStopped /\
  (Start 0 exampleStopped).2 = None /\
  samples (Start 0 exampleStopped).1 = Some ∅ /\
  (running (Start 0 exampleStopped).1 <-> 0 <> 0) /\
  recordSample exampleStack 4096 (Start 0 exampleStopped).1
    = Some (Start 0 exampleStopped).1 /\
  (Stop [] map_to_list 5 (Start 0 exampleStopped).1).2 = (None, Some NotRunning) /\
  (Start 0 (Start 0 exampleStopped).1).2 = None.
Proof.
  assert (Hstop : ~ running exampleStopped)
    by (intros Hrun; apply Hrun; reflexivity).
  split; [exact Hstop|].
  apply (Start_at_clock_reading [] map_to_list 0 5 exampleStack 4096 exampleStopped).
  exact Hstop.
Defined.

(** ** The read adapters on every state *)

(** X6. The read adapters are transparent.  On every state of the profiler
    in which a running profiler has a map (the states that calls on a new
    profiler reach), [RprofReader.Read], [RprofReadCloser.Read] and
    [RprofReaderAt.ReadAt] do not panic, leave the underlying reader and the
    buffer as the underlying call leaves them, return its results [(n, err)]
    and keep the start time; [RprofReadCloser.Close] is the [Close] of the
    underlying reader. *)
Theorem read_adapters_are_transparent {R RA : Type}
    `{!io_Reader R} `{!io_Closer R} `{!io_ReaderAt RA}
    (callers : list Z) (r : R) (ra : RA) (buf : list Byte.byte) (off : Z)
    (p : Rprof) :
  Rprof_ok p ->
  (exists p',
     RprofReader_Read callers r buf p =
       Some (mkReadResult p' (io_Read r buf).1.1 (io_Read r buf).1.2
                          (io_Read r buf).2) /\
     RprofReadCloser_Read callers r buf p =
       Some (mkReadResult p' (io_Read r buf).1.1 (io_Read r buf).1.2
                          (io_Read r buf).2) /\
     startTime p' = startTime p /\ Rprof_ok p') /\
  (exists p',
     RprofReaderAt_ReadAt callers ra buf off p =
       Some (mkReadResult p' (io_ReadAt ra buf off).1.1 (io_ReadAt ra buf off).1.2
                          (io_ReadAt ra buf off).2) /\
     startTime p' = startTime p /\ Rprof_ok p') /\
  RprofReadCloser_Close r = io_Close r.
Proof.
  intros Hok. split; [|split; [|reflexivity]].
  - unfold RprofReader_Read, RprofReadCloser_Read.
    destruct (io_Read r buf) as [[r' buf'] [n err]]. cbn [fst snd].
    destruct (recordSample_ok callers n p Hok) as (p' & Hp' & Hok' & Hst).
    exists p'. rewrite Hp'. repeat split; assumption.
  - unfold RprofReaderAt_ReadAt.
    destruct (io_ReadAt ra buf off) as [[ra' buf'] [n err]]. cbn [fst snd].
    destruct (recordSample_ok callers n p Hok) as (p' & Hp' & Hok' & Hst).
    exists p'. rewrite Hp'. repeat split; assumption.
Qed.

Lemma read_adapters_are_transparent_witness :
  Rprof_ok NewProfiler /\
  (exists p',
     RprofReader_Read exampleStack exampleReader exampleBuffer NewProfiler =
       Some (mkReadResult p' (io_Read exampleReader exampleBuffer).1.1
                          (io_Read exampleReader exampleBuffer).1.2
                          (io_Read exampleReader exampleBuffer).2) /\
     RprofReadCloser_Read exampleStack exampleReader exampleBuffer NewProfiler =
       Some (mkReadResult p' (io_Read exampleReader exampleBuffer).1.1
                          (io_Read exampleReader exampleBuffer).1.2
                          (io_Read exampleReader exampleBuffer).2) /\
     startTime p' = startTime NewProfiler /\ Rprof_ok p') /\
  (exists p',
     RprofReaderAt_ReadAt exampleStack exampleReader exampleBuffer 1 NewProfiler =
       Some (mkReadResult p' (io_ReadAt exampleReader exampleBuffer 1).1.1
                          (io_ReadAt exampleReader exampleBuffer 1).1.2
                          (io_ReadAt exampleReader exampleBuffer 1).2) /\
     startTime p' = startTime NewProfiler /\ Rprof_ok p') /\
  RprofReadCloser_Close exampleReader = io_Close exampleReader.
Proof.
  split; [exact NewProfiler_ok|].
  apply (read_adapters_are_transparent (R := bytesReader) (RA := bytesReader)
           exampleStack exampleReader exampleReader exampleBuffer 1 NewProfiler).
  exact NewProfiler_ok.
Defined.

(** ** What [build] leaves as it is *)

Lemma visitLocation_header st loc :
  header (p (builder (visitLocation st loc))) = header (p (builder st)).
Proof. unfold visitLocation. destruct (locIdx st !! loc); reflexivity. Qed.

Lemma foldl_visitLocation_header addrs : forall st,
  header (p (builder (foldl visitLocation st addrs))) = header (p (builder st)).
Proof.
  induction addrs as [|a addrs IH]; intros st; cbn [foldl]; [reflexivity|].
  rewrite IH. apply visitLocation_header.
Qed.

Lemma visitSample_header st kv :
  header (p (builder (visitSample st kv))) = header (p (builder st)).
Proof.
  destruct kv as [k v]. unfold visitSample. cbn [builder].
  unfold header at 1. cbn.
  exact (foldl_visitLocation_header (locations k)
           {| locIdx := locIdx st; builder := builder st; locs := [] |}).
Qed.

Lemma foldl_visitSample_header entries : forall st,
  header (p (builder (foldl visitSample st entries))) = header (p (builder st)).
Proof.
  induction entries as [|kv entries IH]; intros st; cbn [foldl]; [reflexivity|].
  rewrite IH. apply visitSample_header.
Qed.

Lemma build_header range sampleMap b :
  header (build range sampleMap b) = header (p b).
Proof. unfold build. rewrite foldl_visitSample_header. reflexivity. Qed.

(** ** The string table and the mapping table *)

Lemma addMapping_closed lo hi offset file buildID b :
  p (addMapping lo hi offset file buildID b) =
    Profile.mk
      (Profile.StringTable (p b) ++ [file; buildID])
      (Profile.Mapping (p b) ++
         [ {| Mapping.Id := Z.of_nat (length (Profile.Mapping (p b))) + 1;
              Mapping.MemoryStart := lo;
              Mapping.MemoryLimit := hi;
              Mapping.FileOffset := offset;
              Mapping.Filename := Z.of_nat (length (Profile.StringTable (p b)));
              Mapping.BuildId := Z.of_nat (length (Profile.StringTable (p b))) + 1 |} ])
      (Profile.Location (p b)) (Profile.Sample (p b))
      (Profile.DurationNanos (p b)) (Profile.TimeNanos (p b))
      (Profile.Period (p b)) (Profile.PeriodType (p b))
      (Profile.SampleType (p b)).
Proof.
  unfold addMapping, addMappingEntry, addString, set_Mapping, set_StringTable.
  cbn. rewrite <- app_assoc. cbn [app].
  rewrite !length_app. cbn [length].
  do 3 f_equal. f_equal; lia.
Qed.

Lemma stringOf_nat prof (n : nat) :
  stringOf prof (Z.of_nat n) = Profile.StringTable prof !! n.
Proof.
  unfold stringOf. destruct (Z.ltb_spec (Z.of_nat n) 0); [lia|].
  rewrite Nat2Z.id. reflexivity.
Qed.

Lemma stringOf_Some prof idx str :
  stringOf prof idx = Some str ->
  0 <= idx /\ Profile.StringTable prof !! Z.to_nat idx = Some str.
Proof.
  unfold stringOf. destruct (Z.ltb_spec idx 0); [discriminate|].
  intros H'. split; [lia | exact H'].
Qed.

(** Strings are only appended: an index keeps its string. *)
Lemma stringOf_app prof prof' rest idx str :
  Profile.StringTable prof' = Profile.StringTable prof ++ rest ->
  stringOf prof idx = Some str -> stringOf prof' idx = Some str.
Proof.
  intros Hst Hidx. apply stringOf_Some in Hidx as [Hpos Hidx].
  unfold stringOf. destruct (Z.ltb_spec idx 0); [lia|].
  rewrite Hst. apply lookup_app_l_Some. exact Hidx.
Qed.

Lemma stringOf_ext prof prof' idx :
  Profile.StringTable prof' = Profile.StringTable prof ->
  stringOf prof' idx = stringOf prof idx.
Proof. unfold stringOf. intros ->. reflexivity. Qed.

Lemma mappingOf_app prof prof' rest r m :
  Profile.StringTable prof' = Profile.StringTable prof ++ rest ->
  mappingOf prof r m -> mappingOf prof' r m.
Proof.
  intros Hst (H1 & H2 & H3 & H4 & H5).
  repeat split; try assumption; eapply stringOf_app; eassumption.
Qed.

Lemma addMapping_mappingOf r b :
  mappingOf (p (addMapping (lo r) (hi r) (offset r) (file r) (buildID r) b)) r
    {| Mapping.Id := Z.of_nat (length (Profile.Mapping (p b))) + 1;
       Mapping.MemoryStart := lo r;
       Mapping.MemoryLimit := hi r;
       Mapping.FileOffset := offset r;
       Mapping.Filename := Z.of_nat (length (Profile.StringTable (p b)));
       Mapping.BuildId := Z.of_nat (length (Profile.StringTable (p b))) + 1 |}.
Proof.
  unfold mappingOf.
  cbn [Mapping.MemoryStart Mapping.MemoryLimit Mapping.FileOffset
       Mapping.Filename Mapping.BuildId].
  replace (Z.of_nat (length (Profile.StringTable (p b))) + 1)
    with (Z.of_nat (S (length (Profile.StringTable (p b))))) by lia.
  rewrite !stringOf_nat, addMapping_closed. cbn [Profile.StringTable].
  repeat split.
  - rewrite lookup_app_r by lia. rewrite Nat.sub_diag. reflexivity.
  - rewrite lookup_app_r by lia.
    replace (S (length (Profile.StringTable (p b))) -
             length (Profile.StringTable (p b)))%nat with 1%nat by lia.
    reflexivity.
Qed.

Lemma foldl_addMapping_closed regions : forall b,
  exists added rest,
    Profile.Mapping
      (p (foldl (fun b r => addMapping (lo r) (hi r) (offset r) (file r) (buildID r) b)
                b regions)) = Profile.Mapping (p b) ++ added /\
    Profile.StringTable
      (p (foldl (fun b r => addMapping (lo r) (hi r) (offset r) (file r) (buildID r) b)
                b regions)) = Profile.StringTable (p b) ++ rest /\
    Forall2
      (mappingOf
         (p (foldl (fun b r => addMapping (lo r) (hi r) (offset r) (file r) (buildID r) b)
                   b regions))) regions added /\
    meta (p (foldl (fun b r => addMapping (lo r) (hi r) (offset r) (file r) (buildID r) b)
                   b regions)) = meta (p b).
Proof.
  induction regions as [|r regions IH]; intros b; cbn [foldl].
  - exists [], []. rewrite !app_nil_r. repeat split; constructor.
  - destruct (IH (addMapping (lo r) (hi r) (offset r) (file r) (buildID r) b))
      as (added & rest & Hm & Hst & Hall & Hmeta).
    pose proof (addMapping_mappingOf r b) as Hr.
    apply (mappingOf_app _ _ rest _ _ Hst) in Hr.
    rewrite addMapping_closed in Hm, Hst, Hmeta.
    cbn [Profile.Mapping Profile.StringTable] in Hm, Hst.
    rewrite <- app_assoc in Hm, Hst.
    eexists _, _. split; [exact Hm|]. split; [exact Hst|].
    split; [|exact Hmeta].
    constructor; [exact Hr | exact Hall].
Qed.

(** X7. The string indices of the mappings are right.  After a sequence of
    [addMapping] calls on a builder, and whatever [build] does afterwards,
    the mapping table is the earlier table followed by one mapping for each
    code region, in order, with the bounds and the file offset of the
    region and with [Filename] and [BuildId] the indices of the file name
    and of the build id of the region in the string table; every index of
    the earlier string table still names its string. *)
Theorem addMapping_string_indices (range : mapRange)
    (sampleMap : option (gmap sampleKey sampleValue)) (b : profileBuilder)
    (regions : list region) :
  exists added,
    Profile.Mapping
      (build range sampleMap
         (foldl (fun b r => addMapping (lo r) (hi r) (offset r) (file r) (buildID r) b)
                b regions)) = Profile.Mapping (p b) ++ added /\
    Forall2
      (mappingOf
         (build range sampleMap
            (foldl (fun b r => addMapping (lo r) (hi r) (offset r) (file r) (buildID r) b)
                   b regions))) regions added /\
    (forall idx str,
       stringOf (p b) idx = Some str ->
       stringOf
         (build range sampleMap
            (foldl (fun b r => addMapping (lo r) (hi r) (offset r) (file r) (buildID r) b)
                   b regions)) idx = Some str).
Proof.
  destruct (foldl_addMapping_closed regions b) as (added & rest & Hm & Hst & Hall & _).
  set (b' := foldl _ b regions) in *.
  pose proof (build_header range sampleMap b') as Hh.
  unfold header in Hh.
  assert (HST : Profile.StringTable (build range sampleMap b') =
                Profile.StringTable (p b')) by congruence.
  assert (HM : Profile.Mapping (build range sampleMap b') =
               Profile.Mapping (p b')) by congruence.
  exists added. split; [congruence|]. split.
  - eapply Forall2_impl; [exact Hall|].
    intros r m Hrm. apply (mappingOf_app (p b') _ []); [|exact Hrm].
    rewrite app_nil_r. exact HST.
  - intros idx str Hidx.
    apply (stringOf_app (p b) _ rest); [|exact Hidx]. congruence.
Qed.

(** ** The profile that [Stop] returns *)

Lemma newProfileBuilder_meta regions ts dur :
  meta (p (newProfileBuilder regions ts dur)) =
    (dur, ts, 1, {| ValueType.Type_ := 1; ValueType.Unit := 2 |},
     [ {| ValueType.Type_ := 1; ValueType.Unit := 2 |};
       {| ValueType.Type_ := 3; ValueType.Unit := 4 |} ]) /\
  exists rest,
    Profile.StringTable (p (newProfileBuilder regions ts dur)) =
      [""; "reads"; "count"; "read"; "bytes"]%string ++ rest.
Proof.
  unfold newProfileBuilder, readMapping. destruct regions as [|r regions].
  - split; [reflexivity|]. exists []. reflexivity.
  - match goal with
    | |- context [foldl ?f ?b0 ?l] =>
        destruct (foldl_addMapping_closed l b0) as (added & rest & _ & Hst & _ & Hmeta)
    end.
    split; [exact Hmeta|]. exists rest. exact Hst.
Qed.

(** X8. The profile that [Stop] returns for a running profiler carries the
    window and names its types: [TimeNanos] is the start time and
    [DurationNanos] the clock reading of [Stop] less the start time (as an
    [int64]), the period is 1, the period type is reads/count, the sample
    types are reads/count and read/bytes, and the string index 4 of the
    sample labels is the string bytes, whatever mappings and samples the
    profile has.  The profiler is stopped afterwards. *)
Theorem Stop_profile_header (regions : list region) (range : mapRange)
    (now : Z) (p0 : Rprof) :
  running p0 ->
  exists prof,
    (Stop regions range now p0).2 = (Some prof, None) /\
    ~ running (Stop regions range now p0).1 /\
    Profile.TimeNanos prof = startTime p0 /\
    Profile.DurationNanos prof = int64 (now - startTime p0) /\
    Profile.Period prof = 1 /\
    stringOf prof (ValueType.Type_ (Profile.PeriodType prof)) = Some "reads"%string /\
    stringOf prof (ValueType.Unit (Profile.PeriodType prof)) = Some "count"%string /\
    (fun t => (stringOf prof (ValueType.Type_ t), stringOf prof (ValueType.Unit t)))
      <$> Profile.SampleType prof
      = [ (Some "reads"%string, Some "count"%string);
          (Some "read"%string, Some "bytes"%string) ] /\
    stringOf prof 0 = Some ""%string /\
    stringOf prof 4 = Some "bytes"%string.
Proof.
  intros Hrun. rewrite (Stop_running _ _ _ _ Hrun). cbn [fst snd].
  eexists. split; [reflexivity|].
  split; [intros Hrun'; apply Hrun'; reflexivity|].
  set (b := newProfileBuilder regions (startTime p0) (int64 (now - startTime p0))).
  pose proof (build_header range (samples p0) b) as Hh.
  destruct (newProfileBuilder_meta regions (startTime p0) (int64 (now - startTime p0)))
    as (Hmeta & rest & Hst).
  fold b in Hmeta, Hst. unfold header in Hh. unfold meta in Hmeta.
  injection Hh as HST _ HD HT HP HPT HSTy.
  injection Hmeta as HD' HT' HP' HPT' HSTy'.
  assert (Hstr : forall n str,
            ([""; "reads"; "count"; "read"; "bytes"]%string : list string) !! n = Some str ->
            stringOf (build range (samples p0) b) (Z.of_nat n) = Some str).
  { intros n str Hn. rewrite stringOf_nat, HST, Hst.
    apply lookup_app_l_Some. exact Hn. }
  split; [congruence|]. split; [congruence|]. split; [congruence|].
  rewrite HPT, HPT', HSTy, HSTy'. cbn [ValueType.Type_ ValueType.Unit fmap list_fmap].
  assert (H0 : stringOf (build range (samples p0) b) 0 = Some ""%string)
    by exact (Hstr 0%nat _ eq_refl).
  assert (H1 : stringOf (build range (samples p0) b) 1 = Some "reads"%string)
    by exact (Hstr 1%nat _ eq_refl).
  assert (H2 : stringOf (build range (samples p0) b) 2 = Some "count"%string)
    by exact (Hstr 2%nat _ eq_refl).
  assert (H3 : stringOf (build range (samples p0) b) 3 = Some "read"%string)
    by exact (Hstr 3%nat _ eq_refl).
  assert (H4 : stringOf (build range (samples p0) b) 4 = Some "bytes"%string)
    by exact (Hstr 4%nat _ eq_refl).
  rewrite H0, H1, H2, H3, H4. repeat split; reflexivity.
Qed.

Lemma Stop_profile_header_witness :
  running exampleRunning /\
  exists prof,
    (Stop exampleRegions map_to_list 5 exampleRunning).2 = (Some prof, None) /\
    ~ running (Stop exampleRegions map_to_list 5 exampleRunning).1 /\
    Profile.TimeNanos prof = startTime exampleRunning /\
    Profile.DurationNanos prof = int64 (5 - startTime exampleRunning) /\
    Profile.Period prof = 1 /\
    stringOf prof (ValueType.Type_ (Profile.PeriodType prof)) = Some "reads"%string /\
    stringOf prof (ValueType.Unit (Profile.PeriodType prof)) = Some "count"%string /\
    (fun t => (stringOf prof (ValueType.Type_ t), stringOf prof (ValueType.Unit t)))
      <$> Profile.SampleType prof
      = [ (Some "reads"%string, Some "count"%string);
          (Some "read"%string, Some "bytes"%string) ] /\
    stringOf prof 0 = Some ""%string /\
    stringOf prof 4 = Some "bytes"%string.
Proof.
  assert (Hrun : running exampleRunning) by (unfold running; cbn; lia).
  split; [exact Hrun|].
  apply (Stop_profile_header exampleRegions map_to_list 5 exampleRunning Hrun).
Defined.

(** ** The mapping of a location *)

Lemma covers_test m addr :
  (Mapping.MemoryStart m <=? addr) && (addr <? Mapping.MemoryLimit m) = true
  <-> covers m addr.
Proof.
  unfold covers. rewrite andb_true_iff, Z.leb_le, Z.ltb_lt. reflexivity.
Qed.

(** The search returns the position, counted from 1, of the first mapping
    that contains the address, and 0 when none does. *)
Lemma findMapping_from_lowest addr mapping : forall i,
  (findMapping_from i mapping addr = 0 /\
   forall m, m ∈ mapping -> ~ covers m addr) \/
  (exists j m,
     mapping !! j = Some m /\ covers m addr /\
     findMapping_from i mapping addr = i + Z.of_nat j + 1 /\
     forall j' m', (j' < j)%nat -> mapping !! j' = Some m' -> ~ covers m' addr).
Proof.
  induction mapping as [|m mapping IH]; intros i; cbn [findMapping_from].
  - left. split; [reflexivity|]. intros m Hm. inversion Hm.
  - destruct ((Mapping.MemoryStart m <=? addr) && (addr <? Mapping.MemoryLimit m))
      eqn:Htest.
    + right. exists 0%nat, m. apply covers_test in Htest.
      split; [reflexivity|]. split; [exact Htest|]. split; [lia|].
      intros j' m' Hj'. lia.
    + assert (Hno : ~ covers m addr).
      { intros Hc. apply covers_test in Hc. congruence. }
      destruct (IH (i + 1)) as [[H0 Hnone]|(j & m' & Hj & Hc & Hres & Hfirst)].
      * left. split; [exact H0|].
        intros m' [->|Hm']%elem_of_cons; [exact Hno | apply Hnone, Hm'].
      * right. exists (S j), m'. split; [exact Hj|]. split; [exact Hc|].
        split; [lia|].
        intros [|j'] m'' Hlt Hj'; cbn in Hj'.
        -- injection Hj' as <-. exact Hno.
        -- apply (Hfirst j' m''); [lia | exact Hj'].
Qed.

(** X9. The lowest matching mapping wins.  In a built profile the
    [MappingIndex] of a location is 0 when no mapping of the mapping table
    contains its address; otherwise it is the position, counted from 1, and
    the id of the first mapping of the table that contains the address. *)
Theorem location_mapping_is_first_match (regions : list region) (ts dur : Z)
    (range : mapRange) (sampleMap : option (gmap sampleKey sampleValue)) :
  Forall
    (fun l =>
       (Location.MappingIndex l = 0 /\
        forall m,
          m ∈ Profile.Mapping (build range sampleMap (newProfileBuilder regions ts dur)) ->
          ~ covers m (Location.Address l)) \/
       (exists j m,
          Profile.Mapping (build range sampleMap (newProfileBuilder regions ts dur)) !! j
            = Some m /\
          covers m (Location.Address l) /\
          Location.MappingIndex l = Z.of_nat j + 1 /\
          Mapping.Id m = Location.MappingIndex l /\
          forall j' m', (j' < j)%nat ->
            Profile.Mapping (build range sampleMap (newProfileBuilder regions ts dur)) !! j'
              = Some m' ->
            ~ covers m' (Location.Address l)))
    (Profile.Location (build range sampleMap (newProfileBuilder regions ts dur))).
Proof.
  destruct (build_spec range sampleMap (newProfileBuilder regions ts dur)
              (newProfileBuilder_Location regions ts dur))
    as (st & -> & [Hb Hi Hs Hc] & Hm & _).
  apply Forall_forall. intros l Hl.
  destruct (Hs l Hl) as [_ Hmi]. unfold findMapping in Hmi.
  destruct (findMapping_from_lowest (Location.Address l)
              (Profile.Mapping (p (builder st))) 0)
    as [[H0 Hnone]|(j & m & Hj & Hcov & Hres & Hfirst)].
  - left. split; [congruence | exact Hnone].
  - right. exists j, m. split; [exact Hj|]. split; [exact Hcov|].
    split; [rewrite Hmi, Hres; lia|]. split; [|exact Hfirst].
    assert (Hok : mapping_ids_ok (Profile.Mapping (p (builder st)))).
    { rewrite Hm. apply newProfileBuilder_mapping_ids. }
    rewrite (Hok j m Hj), Hmi, Hres. lia.
Qed.

(** ** The location table *)

Lemma visitLocation_ids st loc :
  ids_consecutive st -> ids_consecutive (visitLocation st loc).
Proof.
  intros [Hlen Hids]. unfold visitLocation.
  destruct (locIdx st !! loc) as [idx|] eqn:Hloc; [split; assumption|].
  split; cbn.
  - rewrite length_app, map_size_insert_None by exact Hloc. cbn. lia.
  - intros i l Hi. apply lookup_app_Some in Hi as [Hi|[Hge Hi]].
    + apply Hids, Hi.
    + apply list_lookup_singleton_Some in Hi as [Hi <-]. cbn. lia.
Qed.

Lemma visitLocation_dom st loc a :
  is_Some (locIdx (visitLocation st loc) !! a) ->
  is_Some (locIdx st !! a) \/ a = loc.
Proof.
  unfold visitLocation. destruct (locIdx st !! loc) as [idx|] eqn:Hloc; cbn.
  - intros Ha. left. exact Ha.
  - rewrite lookup_insert. case_decide as E; [right; congruence|].
    intros Ha. left. exact Ha.
Qed.

Lemma foldl_visitLocation_ids addrs : forall st,
  ids_consecutive st -> ids_consecutive (foldl visitLocation st addrs).
Proof.
  induction addrs as [|a addrs IH]; intros st Hok; cbn [foldl]; [exact Hok|].
  apply IH, visitLocation_ids, Hok.
Qed.

Lemma foldl_visitLocation_dom addrs : forall st a,
  is_Some (locIdx (foldl visitLocation st addrs) !! a) ->
  is_Some (locIdx st !! a) \/ a ∈ addrs.
Proof.
  induction addrs as [|a' addrs IH]; intros st a; cbn [foldl].
  - intros Ha. left. exact Ha.
  - intros Ha. destruct (IH _ _ Ha) as [Ha'|Hin].
    + destruct (visitLocation_dom _ _ _ Ha') as [Hst | ->];
        [left; exact Hst | right; left].
    + right. right. exact Hin.
Qed.

Lemma visitSample_ids st kv :
  ids_consecutive st -> ids_consecutive (visitSample st kv).
Proof.
  intros Hok. destruct kv as [k v]. unfold visitSample, ids_consecutive. cbn.
  apply (foldl_visitLocation_ids (locations k)
           {| locIdx := locIdx st; builder := builder st; locs := [] |}).
  exact Hok.
Qed.

Lemma visitSample_dom st kv a :
  is_Some (locIdx (visitSample st kv) !! a) ->
  is_Some (locIdx st !! a) \/ a ∈ locations kv.1.
Proof.
  destruct kv as [k v]. unfold visitSample. cbn [locIdx fst].
  apply (foldl_visitLocation_dom (locations k)
           {| locIdx := locIdx st; builder := builder st; locs := [] |}).
Qed.

Lemma foldl_visitSample_ids entries : forall st,
  ids_consecutive st -> ids_consecutive (foldl visitSample st entries).
Proof.
  induction entries as [|kv entries IH]; intros st Hok; cbn [foldl]; [exact Hok|].
  apply IH, visitSample_ids, Hok.
Qed.

Lemma foldl_visitSample_dom entries : forall st a,
  is_Some (locIdx (foldl visitSample st entries) !! a) ->
  is_Some (locIdx st !! a) \/ exists kv, kv ∈ entries /\ a ∈ locations kv.1.
Proof.
  induction entries as [|kv entries IH]; intros st a; cbn [foldl].
  - intros Ha. left. exact Ha.
  - intros Ha. destruct (IH _ _ Ha) as [Ha'|(kv' & Hin & Hkv')].
    + destruct (visitSample_dom _ _ _ Ha') as [Hst|Hkv];
        [left; exact Hst | right; exists kv; split; [left | exact Hkv]].
    + right. exists kv'. split; [right; exact Hin | exact Hkv'].
Qed.

Lemma initial_tables_ok b :
  Profile.Location (p b) = [] ->
  tables_ok {| locIdx := ∅; builder := set_Sample [] b; locs := [] |}.
Proof.
  intros Hloc. constructor; cbn.
  - intros a id Hid. rewrite lookup_empty in Hid. discriminate.
  - intros a a' id Hid. rewrite lookup_empty in Hid. discriminate.
  - rewrite Hloc. intros l Hl. inversion Hl.
  - intros a id Hid. rewrite lookup_empty in Hid. discriminate.
Qed.

(** X10. The location table of a built profile has one entry for each
    address that occurs in the arrays of the keys of the sample map, and no
    other: no two entries have the same address, the ids of the entries are
    their positions counted from 1, and an address is in the table if and
    only if a visited key has it in a slot. *)
Theorem location_table_is_deduplicated (regions : list region) (ts dur : Z)
    (range : mapRange) (sampleMap : option (gmap sampleKey sampleValue)) :
  NoDup (Location.Address <$>
           Profile.Location (build range sampleMap (newProfileBuilder regions ts dur))) /\
  (forall i l,
     Profile.Location (build range sampleMap (newProfileBuilder regions ts dur)) !! i
       = Some l ->
     Location.Id l = Z.of_nat i + 1) /\
  (forall a,
     a ∈ Location.Address <$>
           Profile.Location (build range sampleMap (newProfileBuilder regions ts dur))
     <-> exists kv, kv ∈ from_option range [] sampleMap /\ a ∈ locations kv.1).
Proof.
  pose proof (newProfileBuilder_Location regions ts dur) as Hloc.
  set (b := newProfileBuilder regions ts dur) in *.
  unfold build.
  set (st0 := {| locIdx := ∅; builder := set_Sample [] b; locs := [] |}).
  assert (Hids0 : ids_consecutive st0).
  { split; cbn; rewrite Hloc.
    - rewrite map_size_empty. reflexivity.
    - intros i l Hi. rewrite lookup_nil in Hi. discriminate. }
  pose proof (foldl_visitSample_ids (from_option range [] sampleMap) st0 Hids0)
    as [Hlen Hids].
  pose proof (foldl_visitSample_dom (from_option range [] sampleMap) st0) as Hdom.
  destruct (foldl_visitSample_spec (from_option range [] sampleMap) st0
              (initial_tables_ok b Hloc))
    as ([Hb Hi Hs Hc] & _ & _ & ss & _ & Hems).
  set (stf := foldl visitSample st0 (from_option range [] sampleMap)) in *.
  split; [|split].
  - apply NoDup_alt. intros i j a Hia Hja.
    apply list_lookup_fmap_Some in Hia as (li & -> & Hli).
    apply list_lookup_fmap_Some in Hja as (lj & Hadd & Hlj).
    assert (Hini : li ∈ Profile.Location (p (builder stf)))
      by (apply list_elem_of_lookup; exists i; exact Hli).
    assert (Hinj : lj ∈ Profile.Location (p (builder stf)))
      by (apply list_elem_of_lookup; exists j; exact Hlj).
    destruct (Hs li Hini) as [Hi1 _]. destruct (Hs lj Hinj) as [Hj1 _].
    rewrite <- Hadd, Hi1 in Hj1. injection Hj1 as Hid.
    rewrite (Hids i li Hli), (Hids j lj Hlj) in Hid. lia.
  - exact Hids.
  - intros a. split.
    + intros Ha. apply list_elem_of_fmap in Ha as (l & -> & Hl).
      destruct (Hs l Hl) as [Hl1 _].
      destruct (Hdom (Location.Address l)) as [Hin|Hkv];
        [eexists; exact Hl1 | | exact Hkv].
      cbn in Hin. rewrite lookup_empty in Hin. destruct Hin as [x Hx]. discriminate.
    + intros (kv & Hkv & Ha).
      apply list_elem_of_lookup in Hkv as [i Hkvi].
      destruct (Forall2_lookup_l _ _ _ _ _ Hems Hkvi) as (smp & _ & Hids' & _).
      apply list_elem_of_lookup in Ha as [n Hn].
      destruct (Forall2_lookup_l _ _ _ _ _ Hids' Hn) as (id & _ & Hid).
      destruct (Hc a id Hid) as (l & Hl & _ & Hl2).
      apply list_elem_of_fmap. exists l. split; [symmetry; exact Hl2 | exact Hl].
Qed.

(** ** The samples of a built profile *)

Lemma build_sampleContent range sampleMap b :
  Profile.Location (p b) = [] ->
  sampleContent (build range sampleMap b) <$>
    Profile.Sample (build range sampleMap b)
  = entryContent <$> from_option range [] sampleMap.
Proof.
  intros Hloc.
  destruct (build_spec range sampleMap b Hloc) as (st & -> & Hok & _ & Hems).
  induction Hems as [|kv smp entries ss Hem Hems IH]; [reflexivity|].
  cbn [fmap list_fmap]. f_equal; [|exact IH].
  unfold sampleContent, entryContent.
  rewrite (sampleAddresses_emitted st kv smp Hok Hem).
  destruct Hem as (_ & -> & ->). reflexivity.
Qed.

(** X11. A built profile has exactly the samples of the sample map, in the
    order in which the map is visited: one sample for every entry, whose
    location ids refer to the addresses of all the slots of the key, whose
    values are the two counters and whose label is the byte value of the
    bucket.  So the samples are the same, up to their order, for every
    order in which the map is visited. *)
Theorem samples_are_the_entries (regions : list region) (ts dur : Z)
    (range range' : mapRange) (m : gmap sampleKey sampleValue) :
  mapRange_ok range -> mapRange_ok range' ->
  sampleContent (build range (Some m) (newProfileBuilder regions ts dur)) <$>
    Profile.Sample (build range (Some m) (newProfileBuilder regions ts dur))
    = entryContent <$> range m /\
  sampleContent (build range (Some m) (newProfileBuilder regions ts dur)) <$>
    Profile.Sample (build range (Some m) (newProfileBuilder regions ts dur))
    ≡ₚ entryContent <$> map_to_list m /\
  length (Profile.Sample (build range (Some m) (newProfileBuilder regions ts dur)))
    = size m /\
  sampleContent (build range (Some m) (newProfileBuilder regions ts dur)) <$>
    Profile.Sample (build range (Some m) (newProfileBuilder regions ts dur))
    ≡ₚ sampleContent (build range' (Some m) (newProfileBuilder regions ts dur)) <$>
         Profile.Sample (build range' (Some m) (newProfileBuilder regions ts dur)).
Proof.
  intros Hrange Hrange'.
  pose proof (newProfileBuilder_Location regions ts dur) as Hloc.
  rewrite !(build_sampleContent _ (Some m) _ Hloc). cbn [from_option].
  split; [reflexivity|]. split; [rewrite (Hrange m); reflexivity|].
  split; [apply build_length; assumption|].
  rewrite (Hrange m), (Hrange' m). reflexivity.
Qed.

Lemma samples_are_the_entries_witness :
  sampleContent (build map_to_list (Some (foldl recordInto ∅ exampleCalls))
                       (newProfileBuilder [] 1 4)) <$>
    Profile.Sample (build map_to_list (Some (foldl recordInto ∅ exampleCalls))
                          (newProfileBuilder [] 1 4))
    = entryContent <$> map_to_list (foldl recordInto ∅ exampleCalls) /\
  sampleContent (build map_to_list (Some (foldl recordInto ∅ exampleCalls))
                       (newProfileBuilder [] 1 4)) <$>
    Profile.Sample (build map_to_list (Some (foldl recordInto ∅ exampleCalls))
                          (newProfileBuilder [] 1 4))
    ≡ₚ entryContent <$> map_to_list (foldl recordInto ∅ exampleCalls) /\
  length (Profile.Sample (build map_to_list (Some (foldl recordInto ∅ exampleCalls))
                                (newProfileBuilder [] 1 4)))
    = size (foldl recordInto ∅ exampleCalls) /\
  sampleContent (build map_to_list (Some (foldl recordInto ∅ exampleCalls))
                       (newProfileBuilder [] 1 4)) <$>
    Profile.Sample (build map_to_list (Some (foldl recordInto ∅ exampleCalls))
                          (newProfileBuilder [] 1 4))
    ≡ₚ sampleContent (build (fun m => reverse (map_to_list m))
                            (Some (foldl recordInto ∅ exampleCalls))
                            (newProfileBuilder [] 1 4)) <$>
         Profile.Sample (build (fun m => reverse (map_to_list m))
                               (Some (foldl recordInto ∅ exampleCalls))
                               (newProfileBuilder [] 1 4)).
Proof.
  apply (samples_are_the_entries [] 1 4 map_to_list
           (fun m => reverse (map_to_list m)) (foldl recordInto ∅ exampleCalls)).
  - exact map_to_list_ok.
  - intros m. apply reverse_Permutation.
Defined.

(** ** Nothing is lost and nothing is counted twice *)

Lemma sumReads_Permutation l l' : l ≡ₚ l' -> sumReads l = sumReads l'.
Proof.
  unfold sumReads. induction 1 as [|x l l' _ IH|x y l|l l' l'' _ IH1 _ IH2]; cbn;
    [reflexivity | rewrite IH; reflexivity | lia | congruence].
Qed.

Lemma sumBytes_Permutation l l' : l ≡ₚ l' -> sumBytes l = sumBytes l'.
Proof.
  unfold sumBytes. induction 1 as [|x l l' _ IH|x y l|l l' l'' _ IH1 _ IH2]; cbn;
    [reflexivity | rewrite IH; reflexivity | lia | congruence].
Qed.

Lemma sums_nonneg (l : list (sampleKey * sampleValue)) :
  (forall kv, kv ∈ l -> 0 <= kv.2.1 /\ 0 <= kv.2.2) ->
  0 <= sumReads l /\ 0 <= sumBytes l.
Proof.
  unfold sumReads, sumBytes. induction l as [|kv l IH]; intros Hall; cbn; [lia|].
  destruct (Hall kv) as [H1 H2]; [left|].
  destruct IH as [I1 I2]; [intros kv' Hkv'; apply Hall; right; exact Hkv'|].
  lia.
Qed.

Lemma counters_nonneg_delete m k :
  counters_nonneg m -> counters_nonneg (delete k m).
Proof.
  intros Hnn k' v Hk'. apply lookup_delete_Some in Hk' as [_ Hk']. eapply Hnn, Hk'.
Qed.

Lemma counters_nonneg_sums m :
  counters_nonneg m ->
  0 <= sumReads (map_to_list m) /\ 0 <= sumBytes (map_to_list m).
Proof.
  intros Hnn. apply sums_nonneg. intros [k v] Hkv.
  apply elem_of_map_to_list in Hkv. exact (Hnn k v Hkv).
Qed.

(** One call adds 1 to the reads and its size to the bytes of the sample
    map, as long as the sums fit an [int64]. *)
Lemma recordInto_sums m c :
  counters_nonneg m -> 0 <= c.2 ->
  sumReads (map_to_list m) + 1 <= maxInt64 ->
  sumBytes (map_to_list m) + c.2 <= maxInt64 ->
  counters_nonneg (recordInto m c) /\
  sumReads (map_to_list (recordInto m c)) = sumReads (map_to_list m) + 1 /\
  sumBytes (map_to_list (recordInto m c)) = sumBytes (map_to_list m) + c.2.
Proof.
  intros Hnn Hsize Hreads Hbytes. unfold recordInto, counters.
  set (k := newSampleKey c.1 c.2).
  destruct (counters_nonneg_sums _ (counters_nonneg_delete m k Hnn)) as [Hr' Hb'].
  unfold maxInt64 in *.
  destruct (m !! k) as [[c0 b0]|] eqn:Hk; cbn [default from_option id fst snd].
  - destruct (Hnn k _ Hk) as [Hc0 Hb0]. cbn [fst snd] in Hc0, Hb0.
    pose proof (map_to_list_delete m k _ Hk) as Hperm.
    rewrite <- (sumReads_Permutation _ _ Hperm) in Hreads |- *.
    rewrite <- (sumBytes_Permutation _ _ Hperm) in Hbytes |- *.
    unfold sumReads, sumBytes in Hreads, Hbytes. cbn [foldr fst snd] in Hreads, Hbytes.
    fold (sumReads (map_to_list (delete k m))) in Hreads.
    fold (sumBytes (map_to_list (delete k m))) in Hbytes.
    rewrite !int64_id by (unfold is_int64, minInt64, maxInt64; lia).
    rewrite <- insert_delete_eq.
    pose proof (map_to_list_insert (delete k m) k (c0 + 1, b0 + c.2)
                  (lookup_delete_eq m k)) as Hperm'.
    rewrite (sumReads_Permutation _ _ Hperm'), (sumBytes_Permutation _ _ Hperm').
    split; [|unfold sumReads, sumBytes; cbn [foldr fst snd]; lia].
    intros k' v. rewrite insert_delete_eq, lookup_insert. case_decide as E.
    + intros Hv. injection Hv as <-. cbn. lia.
    + apply Hnn.
  - rewrite (delete_id m k Hk) in Hr', Hb'.
    rewrite !int64_id by (unfold is_int64, minInt64, maxInt64; lia).
    pose proof (map_to_list_insert m k (0 + 1, 0 + c.2) Hk) as Hperm'.
    rewrite (sumReads_Permutation _ _ Hperm'), (sumBytes_Permutation _ _ Hperm').
    split; [|unfold sumReads, sumBytes; cbn [foldr fst snd]; lia].
    intros k' v. rewrite lookup_insert. case_decide as E.
    + intros Hv. injection Hv as <-. cbn. lia.
    + apply Hnn.
Qed.

Lemma foldl_recordInto_sums calls : forall m,
  counters_nonneg m ->
  (forall c, c ∈ calls -> 0 <= c.2) ->
  sumReads (map_to_list m) + Z.of_nat (length calls) <= maxInt64 ->
  sumBytes (map_to_list m) + sumSizes calls <= maxInt64 ->
  sumReads (map_to_list (foldl recordInto m calls)) =
    sumReads (map_to_list m) + Z.of_nat (length calls) /\
  sumBytes (map_to_list (foldl recordInto m calls)) =
    sumBytes (map_to_list m) + sumSizes calls.
Proof.
  induction calls as [|c calls IH]; intros m Hnn Hsizes Hreads Hbytes.
  - cbn. unfold sumSizes. cbn. lia.
  - cbn [foldl].
    assert (Hc : 0 <= c.2) by (apply Hsizes; left).
    assert (Hrest : 0 <= sumSizes calls).
    { clear -Hsizes. unfold sumSizes. induction calls as [|c' calls IH]; cbn; [lia|].
      assert (0 <= c'.2) by (apply Hsizes; right; left).
      assert (0 <= foldr (fun c acc => c.2 + acc) 0 calls).
      { apply IH. intros c0 [->|Hc0]%elem_of_cons; apply Hsizes;
          [left | right; right; exact Hc0]. }
      lia. }
    change (sumSizes (c :: calls)) with (c.2 + sumSizes calls) in Hbytes |- *.
    cbn [length] in Hreads |- *.
    destruct (recordInto_sums m c Hnn Hc) as (Hnn' & Hr & Hb); [lia|lia|].
    destruct (IH (recordInto m c) Hnn') as [IHr IHb].
    + intros c' Hc'. apply Hsizes. right. exact Hc'.
    + rewrite Hr. lia.
    + rewrite Hb. lia.
    + rewrite IHr, IHb, Hr, Hb. lia.
Qed.

Lemma totals_emitted li entries ss :
  Forall2 (emitted li) entries ss ->
  foldr (fun smp acc => default 0 (Sample.Value smp !! 0%nat) + acc) 0 ss
    = sumReads entries /\
  foldr (fun smp acc => default 0 (Sample.Value smp !! 1%nat) + acc) 0 ss
    = sumBytes entries.
Proof.
  unfold sumReads, sumBytes.
  induction 1 as [|kv smp entries ss (_ & Hv & _) _ [IH1 IH2]]; [split; reflexivity|].
  cbn [foldr]. rewrite Hv, IH1, IH2. split; reflexivity.
Qed.

(** X12. Nothing is lost and nothing is counted twice within a window: the
    occurrence counts of the samples of its profile add up to the number of
    the [recordSample] calls of the window, and the byte counts to the sum
    of their sizes, as long as these sums fit an [int64] and no size is
    negative. *)
Theorem window_totals (regions : list region) (range : mapRange)
    (now now' : Z) (calls : list (list Z * Z)) (p0 : Rprof) (prof : Profile.t) :
  mapRange_ok range -> ~ running p0 -> now <> 0 ->
  (forall c, c ∈ calls -> 0 <= c.2) ->
  Z.of_nat (length calls) <= maxInt64 ->
  sumSizes calls <= maxInt64 ->
  windowProfile regions range now calls now' p0 = Some prof ->
  totalReads prof = Z.of_nat (length calls) /\
  totalBytes prof = sumSizes calls.
Proof.
  intros Hrange Hstop Hnow Hsizes Hlen Hsum Hprof.
  destruct (window_samples_emitted _ _ _ _ _ _ _ Hstop Hnow Hprof)
    as (st & _ & _ & _ & Hems).
  destruct (totals_emitted _ _ _ Hems) as [Hr Hb].
  unfold totalReads, totalBytes. rewrite Hr, Hb.
  rewrite (sumReads_Permutation _ _ (Hrange _)), (sumBytes_Permutation _ _ (Hrange _)).
  destruct (foldl_recordInto_sums calls ∅) as [Hr' Hb'].
  - intros k v Hk. rewrite lookup_empty in Hk. discriminate.
  - exact Hsizes.
  - rewrite map_to_list_empty. cbn. exact Hlen.
  - rewrite map_to_list_empty. cbn. exact Hsum.
  - rewrite Hr', Hb', map_to_list_empty. cbn. lia.
Qed.

Lemma window_totals_witness :
  totalReads exampleProfile = Z.of_nat (length exampleCalls) /\
  totalBytes exampleProfile = sumSizes exampleCalls.
Proof.
  apply (window_totals [] map_to_list 1 5 exampleCalls NewProfiler exampleProfile).
  - exact map_to_list_ok.
  - exact NewProfiler_stopped.
  - lia.
  - apply (proj1 (Forall_forall (fun c : list Z * Z => 0 <= c.2) exampleCalls)).
    by_evaluation.
  - vm_compute. discriminate.
  - vm_compute. discriminate.
  - exact exampleProfile_window.
Defined.

(** ** Stacks deeper than the array *)

(** X13. [recordSample] keeps the innermost 128 frames of a stack: two
    calls whose stacks have the same innermost 128 frames (or are the same
    shorter stack) and whose sizes fall in the same bucket make the same
    key, so their reads are aggregated in one sample, whatever the frames
    further out are; the array of a key has 128 slots and [numLocations] is
    the number of the frames kept, at most 128. *)
Theorem deep_stacks_share_a_key (callers callers' : list Z) (size size' : Z) :
  take maxLocations callers = take maxLocations callers' ->
  nextPowerOfTwo size = nextPowerOfTwo size' ->
  newSampleKey callers size = newSampleKey callers' size' /\
  length (locations (newSampleKey callers size)) = 128%nat /\
  numLocations (newSampleKey callers size)
    = Z.of_nat (Nat.min (length callers) 128) /\
  take (Nat.min (length callers) 128) (locations (newSampleKey callers size))
    = take 128 callers.
Proof.
  intros Htake Hpow.
  assert (Hlen : Nat.min (length callers) maxLocations
               = Nat.min (length callers') maxLocations).
  { apply (f_equal length) in Htake. rewrite !length_take in Htake. lia. }
  assert (Hloc : capturedLocations callers = capturedLocations callers').
  { unfold capturedLocations, runtime_Callers. cbn [fst].
    rewrite !length_replicate, <- Hlen. f_equal.
    replace (Nat.min (length callers) maxLocations)
      with (Nat.min (Nat.min (length callers) maxLocations) maxLocations) by lia.
    rewrite <- !take_take, Htake. reflexivity. }
  split; [|split; [|split]].
  - unfold newSampleKey. rewrite Hloc, Hpow. f_equal.
    unfold runtime_Callers. cbn [snd]. rewrite !length_replicate, Hlen. reflexivity.
  - apply capturedLocations_length.
  - unfold newSampleKey, runtime_Callers. cbn [numLocations snd].
    rewrite length_replicate. apply uint8_id. unfold maxLocations. lia.
  - unfold newSampleKey, capturedLocations, runtime_Callers. cbn [locations fst].
    rewrite length_replicate.
    rewrite take_app_length' by (rewrite length_take; unfold maxLocations; lia).
    unfold maxLocations.
    destruct (le_lt_dec (length callers) 128) as [Hle|Hgt].
    + rewrite Nat.min_l by exact Hle. rewrite !take_ge by lia. reflexivity.
    + rewrite Nat.min_r by lia. reflexivity.
Qed.

Lemma deep_stacks_share_a_key_witness :
  take maxLocations (replicate 128 4198400 ++ [4202496; 4206592])
    = take maxLocations (replicate 128 4198400 ++ [4210688]) /\
  newSampleKey (replicate 128 4198400 ++ [4202496; 4206592]) 3000
    = newSampleKey (replicate 128 4198400 ++ [4210688]) 4096 /\
  length (locations (newSampleKey (replicate 128 4198400 ++ [4202496; 4206592]) 3000))
    = 128%nat /\
  numLocations (newSampleKey (replicate 128 4198400 ++ [4202496; 4206592]) 3000)
    = Z.of_nat (Nat.min (length (replicate 128 4198400 ++ [4202496; 4206592])) 128) /\
  take (Nat.min (length (replicate 128 4198400 ++ [4202496; 4206592])) 128)
       (locations (newSampleKey (replicate 128 4198400 ++ [4202496; 4206592]) 3000))
    = take 128 (replicate 128 4198400 ++ [4202496; 4206592]).
Proof.
  assert (Htake : take maxLocations (replicate 128 4198400 ++ [4202496; 4206592])
                  = take maxLocations (replicate 128 4198400 ++ [4210688]))
    by (vm_compute; reflexivity).
  split; [exact Htake|].
  apply (deep_stacks_share_a_key (replicate 128 4198400 ++ [4202496; 4206592])
           (replicate 128 4198400 ++ [4210688]) 3000 4096 Htake).
  vm_compute. reflexivity.
Defined.

(** ** The HTTP handler *)

Lemma runCalls_records regions range calls (p : Rprof) :
  runCalls regions range ((fun c => callRecord c.1 c.2) <$> calls) p
    = recordSamples calls p.
Proof.
  revert p. induction calls as [|c calls IH]; intros q; [reflexivity|].
  cbn [fmap list_fmap runCalls recordSamples runCall].
  destruct (recordSample c.1 c.2 q) as [q'|]; [apply IH | reflexivity].
Qed.

Lemma Stop_not_running regions range now (p : Rprof) :
  ~ running (Stop regions range now p).1.
Proof.
  unfold Stop, running. destruct (Z.eqb_spec (startTime p) 0) as [E|NE]; cbn.
  - intros H'. apply H'. exact E.
  - intros H'. apply H'. reflexivity.
Qed.

Lemma secondsParse_spec ext formSeconds :
  secondsParse ext formSeconds ->
  (if negb (String.eqb formSeconds "") then strconv_Atoi ext formSeconds
   else (10, None)) = (sleepSeconds ext formSeconds, None).
Proof.
  unfold secondsParse, sleepSeconds. intros [->|Hok]; [reflexivity|].
  destruct (String.eqb formSeconds ""); [reflexivity|]. cbn [negb].
  destruct (strconv_Atoi ext formSeconds) as [v e]. cbn in Hok |- *.
  rewrite Hok. reflexivity.
Qed.

(** X14. A request whose seconds are not a number is refused before the
    profiler is touched: [ServeHTTP] answers with the error of
    [strconv.Atoi] and the status 400 and does not start the profiler. *)
Theorem ServeHTTP_bad_seconds (ext : externals) (regions : list region)
    (range : mapRange) (formSeconds : string) (now : Z) (during : Z -> list call)
    (now' : Z) (p0 : Rprof) (v : Z) (e : error) :
  formSeconds <> ""%string ->
  strconv_Atoi ext formSeconds = (v, Some e) ->
  ServeHTTP ext regions range formSeconds now during now' p0
    = Some (p0, [http_Error e 400]).
Proof.
  intros Hne Hatoi. unfold ServeHTTP.
  apply String.eqb_neq in Hne. rewrite Hne. cbn [negb]. rewrite Hatoi.
  reflexivity.
Qed.

Lemma ServeHTTP_bad_seconds_witness :
  "soon"%string <> ""%string /\
  strconv_Atoi exampleExternals "soon" = (0, Some (errors_New "invalid syntax")) /\
  ServeHTTP exampleExternals [] map_to_list "soon" 1 exampleDuring 5 exampleStopped
    = Some (exampleStopped, [http_Error (errors_New "invalid syntax") 400]).
Proof.
  assert (Hne : "soon"%string <> ""%string) by discriminate.
  assert (Hatoi : strconv_Atoi exampleExternals "soon"
                  = (0, Some (errors_New "invalid syntax"))) by reflexivity.
  split; [exact Hne|]. split; [exact Hatoi|].
  apply (ServeHTTP_bad_seconds exampleExternals [] map_to_list "soon" 1
           exampleDuring 5 exampleStopped 0 _ Hne Hatoi).
Defined.

(** X15. While a window is open [ServeHTTP] answers with the error of
    [Start], profiler already started, and the status 500, and leaves the
    open window as it is: it does not sleep, and it does not stop the
    profiler that it did not start. *)
Theorem ServeHTTP_already_running (ext : externals) (regions : list region)
    (range : mapRange) (formSeconds : string) (now : Z) (during : Z -> list call)
    (now' : Z) (p0 : Rprof) :
  secondsParse ext formSeconds -> running p0 ->
  ServeHTTP ext regions range formSeconds now during now' p0
    = Some (p0, [http_Error AlreadyRunning 500]).
Proof.
  intros Hparse Hrun. unfold ServeHTTP.
  rewrite (secondsParse_spec _ _ Hparse).
  apply running_eqb in Hrun. unfold Start. rewrite Hrun. reflexivity.
Qed.

Lemma ServeHTTP_already_running_witness :
  secondsParse exampleExternals "3" /\ running exampleRunning /\
  ServeHTTP exampleExternals [] map_to_list "3" 1 exampleDuring 5 exampleRunning
    = Some (exampleRunning, [http_Error AlreadyRunning 500]).
Proof.
  assert (Hparse : secondsParse exampleExternals "3") by (right; reflexivity).
  assert (Hrun : running exampleRunning) by (unfold running; cbn; lia).
  split; [exact Hparse|]. split; [exact Hrun|].
  apply (ServeHTTP_already_running exampleExternals [] map_to_list "3" 1
           exampleDuring 5 exampleRunning Hparse Hrun).
Defined.

(** X16. On a stopped profiler [ServeHTTP] serves the profile of the window
    of its sleep.  When the seconds parse (10 when the form value is
    empty), the clock does not read 0, the other goroutines only read
    during the sleep, and marshalling and compression succeed, the handler
    marshals the profile that [Stop] builds of exactly these reads, sets
    the three headers (the content length is the length of the compressed
    buffer), writes the status 200 and the buffer, and leaves the profiler
    stopped. *)
Theorem ServeHTTP_serves_the_window (ext : externals) (regions : list region)
    (range : mapRange) (formSeconds : string) (now : Z) (during : Z -> list call)
    (now' : Z) (p0 : Rprof) (calls : list (list Z * Z))
    (content buf : list Byte.byte) :
  secondsParse ext formSeconds -> ~ running p0 -> now <> 0 ->
  during (int64 (sleepSeconds ext formSeconds * time_Second))
    = (fun c => callRecord c.1 c.2) <$> calls ->
  proto_Marshal ext (windowProfile regions range now calls now' p0)
    = (content, None) ->
  gzip_Write ext content = (buf, None) ->
  exists p1,
    ServeHTTP ext regions range formSeconds now during now' p0 =
      Some (p1,
        [ Header_Set "Content-Type" "application/x-protobuf";
          Header_Set "Content-Encoding" "gzip";
          Header_Set "Content-Length" (strconv_Itoa ext (Z.of_nat (length buf)));
          WriteHeader 200;
          Write buf ]) /\
    ~ running p1 /\
    is_Some (windowProfile regions range now calls now' p0).
Proof.
  intros Hparse Hstop Hnow Hduring Hmarshal Hgzip.
  rewrite windowProfile_spec in Hmarshal |- * by assumption.
  unfold ServeHTTP. rewrite (secondsParse_spec _ _ Hparse).
  rewrite (Start_stopped _ _ Hstop), Hduring, runCalls_records.
  rewrite (recordSamples_running calls _ ∅) by (exact Hnow || reflexivity).
  cbn [mbind option_bind]. rewrite Stop_running by exact Hnow.
  cbn [samples startTime]. rewrite Hmarshal, Hgzip.
  eexists. split; [reflexivity|].
  split; [intros Hrun; apply Hrun; reflexivity | eexists; reflexivity].
Qed.

Lemma ServeHTTP_serves_the_window_witness :
  secondsParse exampleExternals "3" /\
  exists p1,
    ServeHTTP exampleExternals [] map_to_list "3" 1 exampleDuring 5 NewProfiler =
      Some (p1,
        [ Header_Set "Content-Type" "application/x-protobuf";
          Header_Set "Content-Encoding" "gzip";
          Header_Set "Content-Length"
            (strconv_Itoa exampleExternals
               (Z.of_nat (length (replicate 3 Byte.x0a))));
          WriteHeader 200;
          Write (replicate 3 Byte.x0a) ]) /\
    ~ running p1 /\
    is_Some (windowProfile [] map_to_list 1 exampleCalls 5 NewProfiler).
Proof.
  assert (Hparse : secondsParse exampleExternals "3") by (right; reflexivity).
  split; [exact Hparse|].
  apply (ServeHTTP_serves_the_window exampleExternals [] map_to_list "3" 1
           exampleDuring 5 NewProfiler exampleCalls
           (replicate 3 Byte.x0a) (replicate 3 Byte.x0a) Hparse).
  - exact NewProfiler_stopped.
  - lia.
  - reflexivity.
  - rewrite exampleProfile_window. vm_compute. reflexivity.
  - reflexivity.
Defined.

(** X17. [ServeHTTP] never leaves the profiler running.  On every stopped
    profiler, whatever the request is, whatever the other goroutines call
    on the profiler during the sleep, and whether marshalling and
    compression succeed or fail, the handler does not panic, answers, and
    the profiler is stopped when it returns. *)
Theorem ServeHTTP_leaves_the_profiler_stopped (ext : externals)
    (regions : list region) (range : mapRange) (formSeconds : string) (now : Z)
    (during : Z -> list call) (now' : Z) (p0 : Rprof) :
  ~ running p0 ->
  exists p1 response,
    ServeHTTP ext regions range formSeconds now during now' p0
      = Some (p1, response) /\
    ~ running p1 /\ response <> [].
Proof.
  intros Hstop. unfold ServeHTTP.
  assert (Hok : Rprof_ok p0) by (intros Hrun; contradiction).
  destruct (if negb (String.eqb formSeconds "") then strconv_Atoi ext formSeconds
            else (10, None)) as [seconds [e|]].
  { eexists _, _. split; [reflexivity|]. split; [exact Hstop | discriminate]. }
  pose proof (Start_ok now p0 Hok) as Hok1.
  rewrite (Start_stopped _ _ Hstop) in Hok1 |- *. cbn [fst] in Hok1.
  destruct (runCalls_ok regions range (during (int64 (seconds * time_Second))) _ Hok1)
    as (p1 & Hp1 & _).
  rewrite Hp1. cbn [mbind option_bind].
  pose proof (Stop_not_running regions range now' p1) as Hstopped.
  destruct (Stop regions range now' p1) as [p2 [prof [e|]]]; cbn [fst] in Hstopped.
  { eexists _, _. split; [reflexivity|]. split; [exact Hstopped | discriminate]. }
  destruct (proto_Marshal ext prof) as [content [e|]].
  { eexists _, _. split; [reflexivity|]. split; [exact Hstopped | discriminate]. }
  destruct (gzip_Write ext content) as [buf [e|]].
  { eexists _, _. split; [reflexivity|]. split; [exact Hstopped | discriminate]. }
  eexists _, _. split; [reflexivity|]. split; [exact Hstopped | discriminate].
Qed.

Lemma ServeHTTP_leaves_the_profiler_stopped_witness :
  ~ running exampleStopped /\
  exists p1 response,
    ServeHTTP exampleExternals [] map_to_list "3" 1
      (fun _ => [callStop 2; callStart 3; callRecord exampleStack 100]) 5
      exampleStopped = Some (p1, response) /\
    ~ running p1 /\ response <> [].
Proof.
  assert (Hstop : ~ running exampleStopped)
    by (intros Hrun; apply Hrun; reflexivity).
  split; [exact Hstop|].
  apply (ServeHTTP_leaves_the_profiler_stopped exampleExternals [] map_to_list "3" 1
           (fun _ => [callStop 2; callStart 3; callRecord exampleStack 100]) 5
           exampleStopped Hstop).
Defined.

(** ** The empty window *)

(** X18. A window without reads gives an empty profile: when [Stop] follows
    [Start] with no [recordSample] call between them, the profile has no
    sample and no location; with no known code region its string table is
    the five reserved strings and its mapping table the fake mapping
    alone: the mapping with the id 1 and the addresses from 0 up to
    [1 << 63], whose file offset, file name and build id are 0. *)
Theorem empty_window_profile (regions : list region) (range : mapRange)
    (now now' : Z) (p0 : Rprof) :
  mapRange_ok range -> ~ running p0 -> now <> 0 ->
  exists prof,
    (Stop regions range now' (Start now p0).1).2 = (Some prof, None) /\
    Profile.Sample prof = [] /\
    Profile.Location prof = [] /\
    Profile.TimeNanos prof = now /\
    (regions = [] ->
     Profile.StringTable prof = [""; "reads"; "count"; "read"; "bytes"]%string /\
     Profile.Mapping prof =
       [ {| Mapping.Id := 1;
            Mapping.MemoryStart := 0;
            Mapping.MemoryLimit := 2 ^ 63;
            Mapping.FileOffset := 0;
            Mapping.Filename := 0;
            Mapping.BuildId := 0 |} ]).
Proof.
  intros Hrange Hstop Hnow.
  rewrite (Start_stopped _ _ Hstop). cbn [fst].
  rewrite Stop_running by exact Hnow. cbn [samples startTime snd].
  eexists. split; [reflexivity|].
  assert (Hempty : range ∅ = []).
  { apply Permutation_nil_r. rewrite (Hrange ∅), map_to_list_empty. reflexivity. }
  unfold build. cbn [from_option]. rewrite Hempty. cbn [foldl builder].
  split; [reflexivity|].
  split; [apply newProfileBuilder_Location|].
  split; [|intros ->; split; reflexivity].
  pose proof (proj1 (newProfileBuilder_meta regions now (int64 (now' - now)))) as Hm.
  unfold meta in Hm. injection Hm as _ HT _ _ _. exact HT.
Qed.

Lemma empty_window_profile_witness :
  exists prof,
    (Stop [] map_to_list 5 (Start 1 exampleStopped).1).2 = (Some prof, None) /\
    Profile.Sample prof = [] /\
    Profile.Location prof = [] /\
    Profile.TimeNanos prof = 1 /\
    (@nil region = [] ->
     Profile.StringTable prof = [""; "reads"; "count"; "read"; "bytes"]%string /\
     Profile.Mapping prof =
       [ {| Mapping.Id := 1;
            Mapping.MemoryStart := 0;
            Mapping.MemoryLimit := 2 ^ 63;
            Mapping.FileOffset := 0;
            Mapping.Filename := 0;
            Mapping.BuildId := 0 |} ]).
Proof.
  apply (empty_window_profile [] map_to_list 1 5 exampleStopped).
  - exact map_to_list_ok.
  - intros Hrun. apply Hrun. reflexivity.
  - lia.
Defined.

(** ** Records at the boundary of a window *)

Lemma stopProfiles_Start regions range now cs (q : Rprof) :
  stopProfiles regions range (callStart now :: cs) q
    = stopProfiles regions range cs (Start now q).1.
Proof.
  cbn [stopProfiles runCall mbind option_bind].
  destruct (stopProfiles regions range cs (Start now q).1); reflexivity.
Qed.

Lemma stopProfiles_record regions range callers size cs (q : Rprof) :
  stopProfiles regions range (callRecord callers size :: cs) q
    = q' ← recordSample callers size q; stopProfiles regions range cs q'.
Proof.
  cbn [stopProfiles runCall].
  destruct (recordSample callers size q) as [q'|]; [|reflexivity].
  cbn [mbind option_bind].
  destruct (stopProfiles regions range cs q'); reflexivity.
Qed.

Lemma stopProfiles_Stop regions range now cs (q : Rprof) :
  stopProfiles regions range (callStop now :: cs) q
    = profs ← stopProfiles regions range cs (Stop regions range now q).1;
      Some (option_list (Stop regions range now q).2.1 ++ profs).
Proof. reflexivity. Qed.

(** The [recordSample] calls of a sequence lead from the state [q] to the
    state that [recordSamples] gives, and return no profile. *)
Lemma stopProfiles_records regions range calls cs : forall (q q' : Rprof),
  recordSamples calls q = Some q' ->
  stopProfiles regions range (recordCalls calls ++ cs) q
    = stopProfiles regions range cs q'.
Proof.
  induction calls as [|c calls IH]; intros q q' Hq.
  - injection Hq as <-. reflexivity.
  - cbn [recordSamples] in Hq.
    change (recordCalls (c :: calls) ++ cs)
      with (callRecord c.1 c.2 :: (recordCalls calls ++ cs)).
    rewrite stopProfiles_record.
    destruct (recordSample c.1 c.2 q) as [q1|]; [|discriminate].
    cbn [mbind option_bind] in Hq |- *. exact (IH _ _ Hq).
Qed.

(** A window in a sequence of calls: the profile of its [Stop] is the
    profile of its calls, and the calls after it find a stopped profiler. *)
Lemma stopProfiles_window regions range now calls now' cs (q : Rprof) :
  ~ running q -> now <> 0 ->
  stopProfiles regions range
    (callStart now :: recordCalls calls ++ callStop now' :: cs) q
  = profs ← stopProfiles regions range cs
             {| samples := Some (foldl recordInto ∅ calls); startTime := 0 |};
    Some (windowOf regions range now calls now' :: profs).
Proof.
  intros Hstop Hnow.
  rewrite stopProfiles_Start, (Start_stopped _ _ Hstop). cbn [fst].
  rewrite (stopProfiles_records regions range calls _ _ _
             (recordSamples_running calls
                {| samples := Some ∅; startTime := now |} ∅ Hnow eq_refl)).
  cbn [startTime].
  rewrite stopProfiles_Stop, Stop_running by exact Hnow.
  reflexivity.
Qed.

(** The entry of a key in the map of a window: none when no call of the
    window falls on the key, otherwise the number of these calls and the sum
    of their sizes. *)
Lemma window_lookup calls k :
  foldl recordInto ∅ calls !! k =
    if decide (callsOf k calls = []) then None
    else Some (int64 (Z.of_nat (length (callsOf k calls))),
               int64 (sumSizes (callsOf k calls))).
Proof.
  rewrite foldl_recordInto_lookup.
  destruct (callsOf k calls) as [|c cs]; [apply lookup_empty|].
  cbv zeta. unfold counters. rewrite lookup_empty.
  destruct (decide (c :: cs = [])) as [E|_]; [discriminate|].
  reflexivity.
Qed.

(** C9, amended.  A call of [recordSample] at the boundary of a window, in
    each of the orders in which it, the [Stop] of the window and the [Start]
    of the next window can take the mutex.  The profiler is stopped, a
    window is opened at [now], the calls [calls] record into it, it is
    closed at [now'], a second window is opened at [now2] with the calls
    [calls2] and closed at [now2'].
    - When the call takes the mutex before [Stop], as every call does that
      has returned before [Stop] begins, the profile of the closing window
      is the profile of [calls] and the call, and the call is not in the
      next window.
    - When it takes the mutex after [Stop] and before the next [Start], it
      is in neither profile: it is dropped.
    - When it takes the mutex after the next [Start], it is in the profile
      of the next window and not in the profile of the closing one.
    The samples of the profile of a window are the entries of its sample
    map, and the map has an entry for exactly the keys of the calls of the
    window, which holds the number of these calls and the sum of their
    sizes (as [int64]): a call of a window is counted once in it. *)
Theorem record_at_window_boundary (regions : list region) (range : mapRange)
    (now now' now2 now2' : Z) (calls calls2 : list (list Z * Z))
    (callers : list Z) (size : Z) (p0 : Rprof) :
  mapRange_ok range -> ~ running p0 -> now <> 0 -> now2 <> 0 ->
  stopProfiles regions range
    ([callStart now] ++ recordCalls calls ++
     [callRecord callers size; callStop now'; callStart now2] ++
     recordCalls calls2 ++ [callStop now2']) p0
  = Some [ windowOf regions range now (calls ++ [(callers, size)]) now';
           windowOf regions range now2 calls2 now2' ] /\
  stopProfiles regions range
    ([callStart now] ++ recordCalls calls ++
     [callStop now'; callRecord callers size; callStart now2] ++
     recordCalls calls2 ++ [callStop now2']) p0
  = Some [ windowOf regions range now calls now';
           windowOf regions range now2 calls2 now2' ] /\
  stopProfiles regions range
    ([callStart now] ++ recordCalls calls ++
     [callStop now'; callStart now2; callRecord callers size] ++
     recordCalls calls2 ++ [callStop now2']) p0
  = Some [ windowOf regions range now calls now';
           windowOf regions range now2 ((callers, size) :: calls2) now2' ] /\
  (forall t w t',
     sampleContent (windowOf regions range t w t') <$>
       Profile.Sample (windowOf regions range t w t')
     ≡ₚ entryContent <$> map_to_list (foldl recordInto ∅ w)) /\
  (forall w k,
     foldl recordInto ∅ w !! k =
       if decide (callsOf k w = []) then None
       else Some (int64 (Z.of_nat (length (callsOf k w))),
                  int64 (sumSizes (callsOf k w)))).
Proof.
  intros Hrange Hstop Hnow Hnow2.
  assert (Hstopped : forall m, ~ running {| samples := m; startTime := 0 |})
    by (intros m Hrun; apply Hrun; reflexivity).
  split; [|split; [|split; [|split]]].
  - replace ([callStart now] ++ recordCalls calls ++
             [callRecord callers size; callStop now'; callStart now2] ++
             recordCalls calls2 ++ [callStop now2'])
      with (callStart now :: recordCalls (calls ++ [(callers, size)]) ++
              callStop now' ::
                (callStart now2 :: recordCalls calls2 ++ callStop now2' :: [])).
    2:{ unfold recordCalls. rewrite fmap_app, <- app_assoc. reflexivity. }
    rewrite (stopProfiles_window _ _ _ _ _ _ _ Hstop Hnow).
    rewrite (stopProfiles_window _ _ _ _ _ _ _ (Hstopped _) Hnow2).
    reflexivity.
  - change ([callStart now] ++ recordCalls calls ++
             [callStop now'; callRecord callers size; callStart now2] ++
             recordCalls calls2 ++ [callStop now2'])
      with (callStart now :: recordCalls calls ++ callStop now' ::
              (callRecord callers size ::
                 callStart now2 :: recordCalls calls2 ++ callStop now2' :: [])).
    rewrite (stopProfiles_window _ _ _ _ _ _ _ Hstop Hnow).
    rewrite stopProfiles_record, (recordSample_stopped _ _ _ (Hstopped _)).
    cbn [mbind option_bind].
    rewrite (stopProfiles_window _ _ _ _ _ _ _ (Hstopped _) Hnow2).
    reflexivity.
  - change ([callStart now] ++ recordCalls calls ++
             [callStop now'; callStart now2; callRecord callers size] ++
             recordCalls calls2 ++ [callStop now2'])
      with (callStart now :: recordCalls calls ++ callStop now' ::
              (callStart now2 :: recordCalls ((callers, size) :: calls2) ++
                 callStop now2' :: [])).
    rewrite (stopProfiles_window _ _ _ _ _ _ _ Hstop Hnow).
    rewrite (stopProfiles_window _ _ _ _ _ _ _ (Hstopped _) Hnow2).
    reflexivity.
  - intros t w t'. unfold windowOf.
    rewrite (build_sampleContent _ _ _ (newProfileBuilder_Location regions t _)).
    cbn [from_option]. rewrite (Hrange _). reflexivity.
  - intros w k. apply window_lookup.
Qed.

Lemma record_at_window_boundary_witness :
  ~ running exampleStopped /\
  stopProfiles [] map_to_list
    ([callStart 1] ++ recordCalls exampleCalls ++
     [callRecord exampleStack 4096; callStop 5; callStart 7] ++
     recordCalls [(exampleStack, 100)] ++ [callStop 9]) exampleStopped
  = Some [ windowOf [] map_to_list 1 (exampleCalls ++ [(exampleStack, 4096)]) 5;
           windowOf [] map_to_list 7 [(exampleStack, 100)] 9 ] /\
  stopProfiles [] map_to_list
    ([callStart 1] ++ recordCalls exampleCalls ++
     [callStop 5; callRecord exampleStack 4096; callStart 7] ++
     recordCalls [(exampleStack, 100)] ++ [callStop 9]) exampleStopped
  = Some [ windowOf [] map_to_list 1 exampleCalls 5;
           windowOf [] map_to_list 7 [(exampleStack, 100)] 9 ] /\
  stopProfiles [] map_to_list
    ([callStart 1] ++ recordCalls exampleCalls ++
     [callStop 5; callStart 7; callRecord exampleStack 4096] ++
     recordCalls [(exampleStack, 100)] ++ [callStop 9]) exampleStopped
  = Some [ windowOf [] map_to_list 1 exampleCalls 5;
           windowOf [] map_to_list 7
             ((exampleStack, 4096) :: [(exampleStack, 100)]) 9 ] /\
  (forall t w t',
     sampleContent (windowOf [] map_to_list t w t') <$>
       Profile.Sample (windowOf [] map_to_list t w t')
     ≡ₚ entryContent <$> map_to_list (foldl recordInto ∅ w)) /\
  (forall w k,
     foldl recordInto ∅ w !! k =
       if decide (callsOf k w = []) then None
       else Some (int64 (Z.of_nat (length (callsOf k w))),
                  int64 (sumSizes (callsOf k w)))).
Proof.
  assert (Hstop : ~ running exampleStopped)
    by (intros Hrun; apply Hrun; reflexivity).
  split; [exact Hstop|].
  apply (record_at_window_boundary [] map_to_list 1 5 7 9 exampleCalls
           [(exampleStack, 100)] exampleStack 4096 exampleStopped).
  - exact map_to_list_ok.
  - exact Hstop.
  - lia.
  - lia.
Defined.

(** Against C9 as the specification states it, at a concrete input: a call
    of [recordSample] with [exampleStack] and 4096 bytes that races with
    the [Stop] at 2 of the window opened at 1, before a second window from
    3 to 4.  When the call takes the mutex before [Stop], the profile of
    the closing window has its sample, with the values 1 and 4096.  When it
    takes the mutex after [Stop], the closing window and the next window
    both have no sample: the call has landed in neither, it is lost. *)
Lemma record_after_Stop_is_in_no_window :
  (fun profs : list Profile.t => sampleValues <$> profs) <$>
    stopProfiles [] map_to_list
      [callStart 1; callRecord exampleStack 4096; callStop 2;
       callStart 3; callStop 4] NewProfiler
  = Some [ [ [1; 4096] ]; [] ] /\
  (fun profs : list Profile.t => sampleValues <$> profs) <$>
    stopProfiles [] map_to_list
      [callStart 1; callStop 2; callRecord exampleStack 4096;
       callStart 3; callStop 4] NewProfiler
  = Some [ []; [] ].
Proof. split; vm_compute; reflexivity. Qed.
